(** * The event-study core of [core/intraday_event_study.py]

    A shallow embedding of [reindex_event_features], [build_local_timeseries],
    [_shift_and_select] and [regression], and the properties of the
    specification stated over it.

    Conventions of the embedding:
    - a timestamp is the count of nanoseconds that pandas stores as a
      64-bit integer, a relative grid index is a Python integer (unbounded);
      a shift whose arithmetic leaves the 64-bit range raises
      [OverflowError];
    - a data cell is a binary64 float, the missing marker is NaN;
    - a frequency, when given, is a [pd.Timedelta] measured in the unit of
      the timestamps;
    - index operations ([intersection], [loc]) are those of indexes without
      repeated labels, which is what [build_local_timeseries] asserts
      before it uses them; library behaviour is that of pandas 2;
    - a Python exception is a value of [exn]; a call either returns
      ([Ok]) or raises ([Raise]);
    - the objects a caller hands to [build_local_timeseries] live in a
      [heap], so that in-place updates of these objects can be observed
      after the call, also when the call raises. *)

From Stdlib Require Import ZArith QArith Floats.
From stdpp Require Import gmap strings list sorting.

Open Scope Z_scope.

(** ** Exceptions and outcomes *)

Inductive exn : Type :=
| AssertionError
| NameError (name : string)
| AttributeError (obj attr : string)
| KeyError
| ValueError
| ZeroDivisionError
| IndexingError
| LinAlgError
| OverflowError.

Inductive res (A : Type) : Type :=
| Ok (a : A)
| Raise (e : exn).
Arguments Ok {A} a.
Arguments Raise {A} e.

Definition is_Ok {A} (r : res A) : Prop := ∃ a, r = Ok a.
Definition is_Raise {A} (r : res A) : Prop := ∃ e, r = Raise e.

#[global] Instance res_ret : MRet res := λ A a, Ok a.
#[global] Instance res_bind : MBind res := λ A B f r,
  match r with
  | Ok a => f a
  | Raise e => Raise e
  end.

(** ** Tables

    A table is its column labels and its rows; a row carries its index
    label, so that labels and values stay aligned.  [DataFrame] is a table
    indexed by timestamps, the result of [pd.concat] over a dict is indexed
    by (key, timestamp) pairs. *)

Record Frame (K : Type) : Type := mkFrame {
  columns : list string;
  rows : list (K * list float)
}.
Arguments mkFrame {K} columns rows.
Arguments columns {K} f.
Arguments rows {K} f.

Abbreviation DataFrame := (Frame Z).
Abbreviation MultiFrame := (Frame (Z * Z)).

Definition index {K} (f : Frame K) : list K := (rows f).*1.

Definition nan_row {K} (f : Frame K) : list float :=
  replicate (length (columns f)) PrimFloat.nan.

Definition lookup_Z {A} (l : list A) (i : Z) : option A :=
  if bool_decide (0 ≤ i) then l !! Z.to_nat i else None.

(** The table that [df.shift(periods, freq)] returns.  Without a frequency
    the index stays and the values move down by [periods] rows (up when
    negative), the vacated rows are NaN.  With a frequency the values stay
    and every timestamp moves by [periods * freq]. *)
Definition shift (df : DataFrame) (periods : Z) (freq : option Z) : DataFrame :=
  match freq with
  | Some delta =>
      mkFrame (columns df) (prod_map (λ t, t + periods * delta) id <$> rows df)
  | None =>
      mkFrame (columns df)
        (imap (λ i p, (p.1, default (nan_row df)
                              (lookup_Z (rows df).*2 (Z.of_nat i - periods))))
              (rows df))
  end.

(** Timestamps and durations are 64-bit integers; the smallest one is the
    missing marker NaT and no duration. *)
Definition int64_min : Z := - 2 ^ 63.
Definition int64_max : Z := 2 ^ 63 - 1.

Definition in_int64 (z : Z) : Prop := int64_min ≤ z ≤ int64_max.

#[global] Instance in_int64_dec z : Decision (in_int64 z).
Proof. unfold in_int64. apply _. Defined.

(** The arithmetic of [df.shift(periods, freq)] stays in range.  With a
    frequency the offset [periods * freq] has to be a duration and every
    moved timestamp a 64-bit integer; without one, [periods] is converted
    to a machine integer ([np.intp]). *)
Definition shift_in_range (df : DataFrame) (periods : Z) (freq : option Z)
  : Prop :=
  match freq with
  | Some delta =>
      int64_min < periods * delta ≤ int64_max
      ∧ Forall (λ t, in_int64 (t + periods * delta)) (index df)
  | None => in_int64 periods
  end.

#[global] Instance shift_in_range_dec df periods freq :
  Decision (shift_in_range df periods freq).
Proof. unfold shift_in_range. destruct freq; apply _. Defined.

(** [df.shift(periods, freq)] as a call.  A table without rows is returned
    as it is, and so is, without a frequency, a table without columns: no
    arithmetic takes place.  Otherwise pandas raises [OverflowError] when
    the arithmetic leaves the range. *)
Definition DataFrame_shift (df : DataFrame) (periods : Z) (freq : option Z)
  : res DataFrame :=
  if decide (rows df = [] ∨ (freq = None ∧ columns df = [])) then
    Ok (shift df periods freq)
  else if decide (shift_in_range df periods freq) then
    Ok (shift df periods freq)
  else Raise OverflowError.

(** [idx.intersection(other)] and [idx.difference(other)] for unique indexes:
    the labels of [idx], in the order of [idx], that are (are not) in
    [other]. *)
Definition intersection (idx other : list Z) : list Z := filter (.∈ other) idx.
Definition difference (idx other : list Z) : list Z := filter (.∉ other) idx.

Fixpoint row_at {K} `{EqDecision K} (rs : list (K * list float)) (t : K)
  : option (list float) :=
  match rs with
  | [] => None
  | (t', r) :: rs' => if decide (t' = t) then Some r else row_at rs' t
  end.

(** [df.loc[labels]] on a unique index: the rows at the labels, in the order
    of the labels; a label that is absent is a [KeyError]. *)
Definition loc (df : DataFrame) (labels : list Z) : res DataFrame :=
  match mapM (λ t, pair t <$> row_at (rows df) t) labels with
  | Some rs => Ok (mkFrame (columns df) rs)
  | None => Raise KeyError
  end.

(** [pd.concat(d)] for a dict [d] of tables with the same columns: the
    tables one after the other in the order of the dict's keys, each row
    keyed by (dict key, timestamp). *)
Definition concat (d : list (Z * DataFrame)) : res MultiFrame :=
  match d with
  | [] => Raise ValueError
  | (_, f) :: _ =>
      Ok (mkFrame (columns f)
            (d ≫= λ kf, prod_map (pair kf.1) id <$> rows kf.2))
  end.

(** A Python dict keeps its keys in the order of their first insertion;
    [d[k] = v] on a present key replaces the value in place. *)
Fixpoint dict_set {V} (k : Z) (v : V) (d : list (Z * V)) : list (Z * V) :=
  match d with
  | [] => [(k, v)]
  | (k', v') :: d' =>
      if decide (k' = k) then (k, v) :: d' else (k', v') :: dict_set k v d'
  end.

(** ** The assertions of [helpers.dbg] *)

Definition dassert (cond : bool) : res unit :=
  if cond then Ok () else Raise AssertionError.

(** Order of the composite (key, timestamp) labels of a [pd.concat] result. *)
Definition key_lt (a b : Z * Z) : Prop :=
  a.1 < b.1 ∨ (a.1 = b.1 ∧ a.2 < b.2).
Definition key_le (a b : Z * Z) : Prop :=
  a.1 < b.1 ∨ (a.1 = b.1 ∧ a.2 ≤ b.2).

#[global] Instance key_lt_dec : RelDecision key_lt.
Proof. intros a b. unfold key_lt. apply _. Defined.
#[global] Instance key_le_dec : RelDecision key_le.
Proof. intros a b. unfold key_le. apply _. Defined.

(** Modelled from the spec: [dbg.dassert_monotonic_index] is defined in
    [helpers/dbg.py]; the specification has it fail with an assertion error
    unless the index is strictly monotonically increasing. *)
Definition dassert_monotonic_index {K} (lt : relation K) `{!RelDecision lt}
  (idx : list K) : res unit :=
  dassert (bool_decide (Sorted lt idx)).

(** ** The caller's objects *)

Inductive pyobj : Type :=
| PyDataFrame (df : DataFrame)
| PyObject (type_name : string).

(** The [Iterable[int]] given as [relative_grid_indices]: a list (mutable,
    shared with the callee), an immutable sequence such as a tuple or a
    range, or a one-shot iterator with its remaining items. *)
Inductive iterable : Type :=
| PyList (items : list Z)
| PyTuple (items : list Z)
| PyIterator (remaining : list Z).

Definition items_of (it : iterable) : list Z :=
  match it with
  | PyList l | PyTuple l | PyIterator l => l
  end.

(** Values stored in the per-offset [info] dict. *)
Inductive info_value : Type :=
| InfoIndex (labels : list Z)
| InfoInt (n : Z)
| InfoFreq (delta : Z)
| InfoGlobal (name : string).

(** [_LOG.warning("pct_found=%f for periods=%d", pct_found, periods)] *)
Record log_record : Type := Warning {
  warn_pct_found : Q;
  warn_periods : Z
}.

Record heap : Type := mkHeap {
  h_events : pyobj;
  h_grid_data : pyobj;
  h_relative_grid_indices : iterable;
  h_info : option (gmap Z (gmap string info_value));
  h_log : list log_record
}.

(** ** Calls: state passing over the caller's objects, with exceptions *)

Definition ST (S A : Type) : Type := S → res A * S.

#[global] Instance ST_ret {S} : MRet (ST S) := λ A a s, (Ok a, s).
#[global] Instance ST_bind {S} : MBind (ST S) := λ A B f m s,
  match m s with
  | (Ok a, s') => f a s'
  | (Raise e, s') => (Raise e, s')
  end.

Definition lift {S A} (r : res A) : ST S A := λ s, (r, s).
Definition get_heap {S} : ST S S := λ s, (Ok s, s).
Definition modify {S} (f : S → S) : ST S unit := λ s, (Ok (), f s).

Abbreviation M := (ST heap).

Definition set_relative_grid_indices (it : iterable) (h : heap) : heap :=
  mkHeap (h_events h) (h_grid_data h) it (h_info h) (h_log h).
Definition set_info (i : option (gmap Z (gmap string info_value))) (h : heap)
  : heap :=
  mkHeap (h_events h) (h_grid_data h) (h_relative_grid_indices h) i (h_log h).
(** [info[idx] = info_for_idx] on the caller's dict. *)
Definition info_setitem (idx : Z) (info_for_idx : gmap string info_value)
  (h : heap) : heap :=
  set_info (<[idx := info_for_idx]> <$> h_info h) h.
Definition add_log (r : log_record) (h : heap) : heap :=
  mkHeap (h_events h) (h_grid_data h) (h_relative_grid_indices h) (h_info h)
         (h_log h ++ [r]).

(** ** Names of the module

    The names bound at the top level of [intraday_event_study.py]; loading
    any other name that is not a builtin raises [NameError]. *)
Definition module_globals : list string :=
  ["logging"; "Iterable"; "Optional"; "Union"; "np"; "pd"; "dbg"; "_LOG";
   "reindex_event_features"; "build_local_timeseries"; "_shift_and_select";
   "regression"]%string.

Definition load_global (name : string) : res info_value :=
  if decide (name ∈ module_globals) then Ok (InfoGlobal name)
  else Raise (NameError name).

(** ** [_shift_and_select] *)

Definition Qltb (x y : Q) : bool := negb (Qle_bool y x).

(** [intersection.size / idx.size], as the exact quotient.  The source
    compares the binary64 quotient with the binary64 literal [0.9]; the two
    comparisons agree for every index of fewer than 10^15 labels. *)
Definition pct_found_of (intersection_size idx_size : nat) : res Q :=
  if decide (idx_size = 0%nat) then Raise ZeroDivisionError
  else Ok (Z.of_nat intersection_size # Pos.of_nat idx_size).

Definition _shift_and_select (idx : list Z) (grid_data : DataFrame)
  (periods : Z) (freq : option Z) (info : option (gmap string info_value))
  : M (DataFrame * option (gmap string info_value)) :=
  (* Shift. *)
  shifted_grid_data ← lift (DataFrame_shift grid_data periods freq) ;
  (* Select. *)
  let intersection := intersection idx (index shifted_grid_data) in
  lift (dassert (bool_decide (intersection ≠ []))) ;;
  pct_found ← lift (pct_found_of (length intersection) (length idx)) ;
  (if Qltb pct_found (9 # 10)
   then modify (add_log (Warning pct_found periods))
   else mret ()) ;;
  selected ← lift (loc shifted_grid_data intersection) ;
  (* Maybe add info. *)
  match info with
  | None => mret (selected, None)
  | Some info =>
      lift (dassert (bool_decide (info = ∅))) ;;
      let info :=
        <["indices_with_no_data" := InfoIndex (difference intersection idx)]>
          info in
      let info := <["periods" := InfoInt periods]> info in
      let info :=
        match freq with
        | Some delta => <["freq" := InfoFreq delta]> info
        | None => info
        end in
      mode ← lift (load_global "mode") ;
      let info := <["mode" := mode]> info in
      mret (selected, Some info)
  end.

(** ** [build_local_timeseries] *)

Definition dassert_isinstance_DataFrame (o : pyobj) : res DataFrame :=
  match o with
  | PyDataFrame df => Ok df
  | PyObject _ => Raise AssertionError
  end.

(** [if not isinstance(relative_grid_indices, list):
        relative_grid_indices = list(relative_grid_indices)]
    The result tells whether the local name still refers to the caller's
    list, and gives the items.  [list(it)] exhausts a one-shot iterator. *)
Definition as_list : M (bool * list Z) := λ h,
  match h_relative_grid_indices h with
  | PyList l => (Ok (true, l), h)
  | PyTuple l => (Ok (false, l), h)
  | PyIterator l => (Ok (false, l), set_relative_grid_indices (PyIterator []) h)
  end.

(** [relative_grid_indices.sort()]: in place, so the caller's list is sorted
    when the local name refers to it. *)
Definition list_sort (aliased : bool) (l : list Z) : M (list Z) :=
  let sorted := merge_sort Z.le l in
  (if aliased then modify (set_relative_grid_indices (PyList sorted))
   else mret ()) ;;
  mret sorted.

Fixpoint for_idx (events_index : list Z) (grid_data : DataFrame)
  (freq : option Z) (relative_grid_indices : list Z)
  (relative_data : list (Z * DataFrame)) : M (list (Z * DataFrame)) :=
  match relative_grid_indices with
  | [] => mret relative_data
  | idx :: rest =>
      h ← get_heap ;
      let info_for_idx :=
        match h_info h with
        | Some _ => Some ∅
        | None => None
        end in
      r ← _shift_and_select events_index grid_data (- idx) freq info_for_idx ;
      (match r.2 with
       | Some info_for_idx => modify (info_setitem idx info_for_idx)
       | None => mret ()
       end) ;;
      for_idx events_index grid_data freq rest (dict_set idx r.1 relative_data)
  end.

Definition build_local_timeseries (freq : option Z) : M MultiFrame :=
  (* Enforce assumptions on inputs. *)
  h ← get_heap ;
  events ← lift (dassert_isinstance_DataFrame (h_events h)) ;
  grid_data ← lift (dassert_isinstance_DataFrame (h_grid_data h)) ;
  lift (dassert_monotonic_index Z.lt (index events)) ;;
  lift (dassert_monotonic_index Z.lt (index grid_data)) ;;
  (* Make `relative_grid_indices` a sorted list. *)
  l ← as_list ;
  lift (dassert (bool_decide (l.2 ≠ []))) ;;
  relative_grid_indices ← list_sort l.1 l.2 ;
  (* Gather the data and, if requested, info. *)
  relative_data ← for_idx (index events) grid_data freq relative_grid_indices [] ;
  (* Turn the data dictionary into a multiindexed dataframe. *)
  df ← lift (concat relative_data) ;
  lift (dassert_monotonic_index key_lt (index df)) ;;
  mret df.

(** ** [reindex_event_features]

    [DataFrame.reindex(index=target, **kwargs)] for the keyword arguments
    that set the fill policy: [method] ("pad"/"ffill" or
    "backfill"/"bfill"), [fill_value] and [limit].  A target label found in
    the table takes the table's row.  Any other label takes the row of the
    label before it (pad) or after it (backfill) in the table when a method
    is given, for at most [limit] such labels in a row, and is filled with
    [fill_value], NaN by default, otherwise. *)

Inductive fill_method : Type := pad | backfill.

Record reindex_kwargs : Type := mk_kwargs {
  kw_method : option fill_method;
  kw_fill_value : option float;
  kw_limit : option nat
}.

Definition no_kwargs : reindex_kwargs := mk_kwargs None None None.

(** [before inc s t]: label [s] is at or before label [t] in the direction
    of an index that is increasing ([inc]) or decreasing. *)
Definition before (increasing : bool) (s t : Z) : Prop :=
  if increasing then s ≤ t else t ≤ s.

#[global] Instance before_dec inc : RelDecision (before inc).
Proof. intros s t. unfold before. destruct inc; apply _. Defined.

(** Pad takes the last row of the table that is at or before the label in
    the direction of the (monotonic) index, backfill the first row at or
    after it. *)
Definition fill_source (m : fill_method) (increasing : bool)
  (src : list (Z * list float)) (t : Z) : option (Z * list float) :=
  match m with
  | pad => last (filter (λ p, before increasing p.1 t) src)
  | backfill => head (filter (λ p, before increasing t p.1) src)
  end.

(** With a limit, the source row at label [s] fills only the first [limit]
    (pad; last [limit] for backfill) target labels that lie strictly
    beyond it. *)
Definition within_limit (m : fill_method) (limit : option nat)
  (target : list Z) (j : nat) (s : Z) : bool :=
  match limit with
  | None => true
  | Some lim =>
      match m with
      | pad =>
          bool_decide
            (length (filter (λ t', (s < t')%Z) (take j target)) < lim)%nat
      | backfill =>
          bool_decide
            (length (filter (λ t', (t' < s)%Z) (drop (S j) target)) < lim)%nat
      end
  end.

Definition fill_row (df : DataFrame) (kwargs : reindex_kwargs) : list float :=
  replicate (length (columns df)) (default PrimFloat.nan (kw_fill_value kwargs)).

Definition reindex_row (df : DataFrame) (kwargs : reindex_kwargs)
  (increasing : bool) (limit : option nat) (target : list Z)
  (j : nat) (t : Z) : list float :=
  match row_at (rows df) t with
  | Some r => r
  | None =>
      match kw_method kwargs with
      | None => fill_row df kwargs
      | Some m =>
          match fill_source m increasing (rows df) t with
          | Some (s, r) =>
              if within_limit m limit target j s then r else fill_row df kwargs
          | None => fill_row df kwargs
          end
      end
  end.

Definition reindexed (df : DataFrame) (kwargs : reindex_kwargs)
  (increasing : bool) (limit : option nat) (target : list Z) : DataFrame :=
  mkFrame (columns df)
    (imap (λ j t, (t, reindex_row df kwargs increasing limit target j t)) target).

Definition reindex (df : DataFrame) (target : list Z) (kwargs : reindex_kwargs)
  : res DataFrame :=
  if decide (index df = target) then Ok df
  else if negb (bool_decide (NoDup (index df))) then
    (* "cannot reindex on an axis with duplicate labels" *)
    Raise ValueError
  else
    match kw_method kwargs, kw_limit kwargs with
    | None, Some _ =>
        (* "limit argument only valid if doing pad, backfill or nearest" *)
        Raise ValueError
    | None, None => Ok (reindexed df kwargs true None target)
    | Some _, limit =>
        let increasing := bool_decide (Sorted Z.lt (index df)) in
        let decreasing := bool_decide (Sorted (flip Z.lt) (index df)) in
        if decide (target = []) then Ok (mkFrame (columns df) [])
        else if increasing && bool_decide (Sorted Z.le target) then
          match limit with
          | Some O =>
              (* "Limit must be greater than 0" *)
              Raise ValueError
          | _ => Ok (reindexed df kwargs true limit target)
          end
        else
          match limit with
          | Some _ =>
              (* "limit argument ... only well-defined if index and target
                 are monotonic" *)
              Raise ValueError
          | None =>
              if increasing || decreasing then
                Ok (reindexed df kwargs increasing None target)
              else
                (* "index must be monotonic increasing or decreasing" *)
                Raise ValueError
          end
    end.

(** The function reads its two tables and writes to no object: in the
    state-passing reading it is the lifting of a pure computation. *)
Definition reindex_event_features (events grid_data : DataFrame)
  (kwargs : reindex_kwargs) : M DataFrame :=
  reindexed ← lift (reindex events (index grid_data) kwargs) ;
  mret reindexed.

(** ** [regression] *)

Abbreviation Series := (list (Z * float)).
Abbreviation matrix := (list (list float)).

(** The numerical routines of numpy that [regression] calls and whose
    floating-point results the embedding does not fix: the mean, the inner
    product, and LAPACK's least-squares solver ([np.linalg.lstsq], giving
    the solution and the array of residual sums, which is empty when the
    system is not overdetermined or rank deficient) and inverse
    ([np.linalg.inv], a [LinAlgError] on a singular matrix). *)
Class Numpy : Type := {
  np_mean : list float → float;
  np_dot : list float → list float → float;
  np_linalg_lstsq : matrix → list float → res (list float * list float);
  np_linalg_inv : matrix → res matrix
}.

Definition float_of_Z (z : Z) : float :=
  if bool_decide (0 ≤ z) then PrimFloat.of_uint63 (Uint63.of_Z z)
  else PrimFloat.opp (PrimFloat.of_uint63 (Uint63.of_Z (- z))).

(** Elementwise operation on two one-dimensional arrays, with numpy's
    broadcasting: equal lengths, or one of the two of length one. *)
Definition broadcast1 (f : float → float → float) (a b : list float)
  : res (list float) :=
  if decide (length a = length b) then Ok (zip_with f a b)
  else match a, b with
       | [x], _ => Ok (f x <$> b)
       | _, [y] => Ok ((λ x, f x y) <$> a)
       | _, _ => Raise ValueError
       end.

(** A two-dimensional array times a one-dimensional one: every row of the
    matrix is broadcast against the vector. *)
Definition broadcast2 (f : float → float → float) (a : matrix) (b : list float)
  : res matrix :=
  match a with
  | [] => if bool_decide (length b ≤ 1)%nat then Ok [] else Raise ValueError
  | _ => mapM (λ row, broadcast1 f row b) a
  end.

Definition diagonal (a : matrix) : list float :=
  omap id (imap (λ i row, row !! i) a).

Fixpoint transpose (ncols : nat) (a : matrix) : matrix :=
  match ncols with
  | O => []
  | S n => transpose n a ++ [omap (λ row, row !! n) a]
  end.

(** [x[mask]] for a boolean series [mask]: by position when the indexes are
    equal, otherwise the mask is aligned to the index of [x], which fails
    when a label of [x] has no entry in the mask. *)
Definition getitem_bool {A} (x : list (Z * A)) (mask : list (Z * bool))
  : res (list (Z * A)) :=
  if decide (x.*1 = mask.*1) then
    Ok (omap (λ p, if (p.2 : bool) then Some p.1 else None) (zip x mask.*2))
  else
    match mapM (λ p, pair p <$> (list_to_map mask : gmap Z bool) !! p.1) x with
    | Some xs => Ok (omap (λ p, if (p.2 : bool) then Some p.1 else None) xs)
    | None => Raise IndexingError
    end.

(** Values of the [info] dict of [regression]; an array stands for the
    string that [np.array2string] makes of it. *)
Inductive reg_value : Type :=
| RegInt (n : nat)
| RegFloat (v : float)
| RegArray (a : list float)
| RegMatrix (a : matrix).

(** The attributes of the numpy module that take a matrix and a vector.
    [matmul] is one; numpy has no attribute [mat_mul]. *)
Definition np_getattr `{Numpy} (attr : string)
  : res (matrix → list float → res (list float)) :=
  if decide (attr = "matmul"%string) then
    Ok (λ a v, mapM (λ row,
                  if decide (length row = length v) then Ok (np_dot row v)
                  else Raise ValueError) a)
  else Raise (AttributeError "numpy" attr).

Definition regression `{Numpy} (x : DataFrame) (y : Series)
  : ST (option (gmap string reg_value)) Series :=
  (* Determine number of non-NaN y-values. *)
  let nan_filter := prod_map id (λ v, negb (PrimFloat.is_nan v)) <$> y in
  let nobs := length (filter (λ p, p.2 = true) nan_filter) in
  (* Filter NaNs. *)
  x_rows ← lift (getitem_bool (rows x) nan_filter) ;
  let x := mkFrame (columns x) x_rows in
  y ← lift (getitem_bool y nan_filter) ;
  let y_mean := np_mean y.*2 in
  (* Compute total sum of squares. *)
  let centered := (λ v, PrimFloat.sub v y_mean) <$> y.*2 in
  let tss := np_dot centered centered in
  (* Perform linear regression (estimate beta). *)
  regress ← lift (np_linalg_lstsq (rows x).*2 y.*2) ;
  let beta_hat := regress.1 in
  (* Extract residual sum of squares. *)
  let rss := regress.2 in
  (* Compute r^2. *)
  let r_sq := (λ v, PrimFloat.sub 1 (PrimFloat.div v tss)) <$> rss in
  (* Estimate variance sigma_hat_sq. *)
  let x_t := transpose (length (columns x)) (rows x).*2 in
  let xtx := (λ ci, (λ cj, np_dot ci cj) <$> x_t) <$> x_t in
  xtx_inv ← lift (np_linalg_inv xtx) ;
  let dof := Z.of_nat nobs - Z.of_nat (length (columns x)) in
  let sigma_hat_sq := (λ v, PrimFloat.div v (float_of_Z dof)) <$> rss in
  (* Estimate covariance of beta. *)
  beta_hat_covar ← lift (broadcast2 PrimFloat.mul xtx_inv sigma_hat_sq) ;
  (* Z-score beta coefficients. *)
  var ← lift (broadcast1 PrimFloat.mul sigma_hat_sq (diagonal xtx_inv)) ;
  beta_hat_z_score ←
    lift (broadcast1 PrimFloat.div beta_hat (PrimFloat.sqrt <$> var)) ;
  (* Maybe add info. *)
  info ← get_heap ;
  (match info with
   | None => mret ()
   | Some info =>
       lift (dassert (bool_decide (info = ∅))) ;;
       modify (λ _, Some (
         <["beta_hat_z_score=%s" := RegArray beta_hat_z_score]> (
         <["beta_hat_covar=%s" := RegMatrix beta_hat_covar]> (
         <["sigma_hat_sq=%s" := RegArray sigma_hat_sq]> (
         <["r^2=%f" := RegArray r_sq]> (
         <["rss=%f" := RegArray rss]> (
         <["beta=%s" := RegArray beta_hat]> (
         <["tss=%f" := RegFloat tss]> (
         <["y_mean=%f" := RegFloat y_mean]> (
         <["nobs (resp)=%d" := RegInt nobs]> info))))))))))
   end) ;;
  (* Calculate predicted values *)
  mat_mul ← lift (np_getattr "mat_mul") ;
  y_hat ← lift (mat_mul (rows x).*2 beta_hat) ;
  mret (zip y.*1 y_hat).

(** Number of non-NaN observations of a response. *)
Definition nobs_of (y : Series) : nat :=
  length (filter (λ p, PrimFloat.is_nan p.2 = false) y).

(** An instance of the numerical interface for design matrices of a single
    column, where least squares and the inverse have closed forms; sums are
    taken from left to right. *)
Definition sum_floats (l : list float) : float :=
  foldl PrimFloat.add 0%float l.

Definition dot_floats (a b : list float) : float :=
  sum_floats (zip_with PrimFloat.mul a b).

Definition lstsq_single (a : matrix) (b : list float)
  : res (list float * list float) :=
  match mapM (λ row, match row with [v] => Some v | _ => None end) a with
  | Some col =>
      if decide (length col = length b) then
        let beta := PrimFloat.div (dot_floats col b) (dot_floats col col) in
        let resid := zip_with (λ v w, PrimFloat.sub w (PrimFloat.mul v beta)) col b in
        Ok ([beta],
            if bool_decide (length col ≤ 1)%nat then []
            else [dot_floats resid resid])
      else Raise LinAlgError
  | None => Raise LinAlgError
  end.

Definition inv_single (a : matrix) : res matrix :=
  match a with
  | [[v]] =>
      if PrimFloat.eqb v 0%float then Raise LinAlgError
      else Ok [[PrimFloat.div 1 v]]
  | _ => Raise LinAlgError
  end.

Definition Numpy_single : Numpy := {|
  np_mean l := PrimFloat.div (sum_floats l) (float_of_Z (Z.of_nat (length l)));
  np_dot := dot_floats;
  np_linalg_lstsq := lstsq_single;
  np_linalg_inv := inv_single
|}.

(** ** Notions used to state the properties *)

(** The event timestamps that the grid covers at relative grid index [k]:
    the intersection computed in [_shift_and_select] for [periods = -k]. *)
Definition hits (events_index : list Z) (grid_data : DataFrame)
  (freq : option Z) (k : Z) : list Z :=
  intersection events_index (index (shift grid_data (- k) freq)).

(** The rows of a table at the given labels. *)
Definition selected (df : DataFrame) (labels : list Z) : DataFrame :=
  mkFrame (columns df) ((λ t, (t, default [] (row_at (rows df) t))) <$> labels).

(** The exception, if any, with which the selection at relative grid index
    [k] fails: the one of the shift when the shift fails, [AssertionError]
    when no event is covered. *)
Definition index_failure (events_index : list Z) (grid_data : DataFrame)
  (freq : option Z) (k : Z) : option exn :=
  match DataFrame_shift grid_data (- k) freq with
  | Raise e => Some e
  | Ok _ =>
      if decide (hits events_index grid_data freq k = []) then
        Some AssertionError
      else None
  end.

(** The failure of the first index, in the order of [l], that has one. *)
Definition first_failure (events_index : list Z) (grid_data : DataFrame)
  (freq : option Z) (l : list Z) : option exn :=
  head (omap (index_failure events_index grid_data freq) l).

(** The table selected at relative grid index [k]. *)
Definition data_at (events_index : list Z) (grid_data : DataFrame)
  (freq : option Z) (k : Z) : DataFrame :=
  selected (shift grid_data (- k) freq) (hits events_index grid_data freq k).

(** The dict [relative_data] after the loop has run over the indices [l],
    and the property that it maps every key to the table selected at that
    key. *)
Definition gather (events_index : list Z) (grid_data : DataFrame)
  (freq : option Z) (rd : list (Z * DataFrame)) (l : list Z)
  : list (Z * DataFrame) :=
  foldl (λ rd k, dict_set k (data_at events_index grid_data freq k) rd) rd l.

Definition gathered (events_index : list Z) (grid_data : DataFrame)
  (freq : option Z) (rd : list (Z * DataFrame)) : Prop :=
  Forall (λ kf, kf.2 = data_at events_index grid_data freq kf.1) rd.

Definition coverage (events_index : list Z) (grid_data : DataFrame)
  (freq : option Z) (k : Z) : Q :=
  Z.of_nat (length (hits events_index grid_data freq k))
  # Pos.of_nat (length events_index).

Definition maybe_warn (pct_found : Q) (periods : Z) (h : heap) : heap :=
  if Qltb pct_found (9 # 10) then add_log (Warning pct_found periods) h else h.

(** The inputs that pass the assertions on the two tables. *)
Definition tables_valid (h : heap) : bool :=
  match h_events h, h_grid_data h with
  | PyDataFrame events, PyDataFrame grid_data =>
      bool_decide (Sorted Z.lt (index events))
      && bool_decide (Sorted Z.lt (index grid_data))
  | _, _ => false
  end.

Definition not_tabular (o : pyobj) : Prop := ∀ df, o ≠ PyDataFrame df.

Definition index_not_increasing (o : pyobj) : Prop :=
  ∃ df, o = PyDataFrame df ∧ ¬ Sorted Z.lt (index df).

(** What the call leaves in the caller's [relative_grid_indices] once the
    tables passed their assertions. *)
Definition indices_after_call (it : iterable) : iterable :=
  match it with
  | PyList l => PyList (merge_sort Z.le l)
  | PyTuple l => PyTuple l
  | PyIterator _ => PyIterator []
  end.

(** The arguments the caller passed are the same objects, with the same
    contents, after the call. *)
Definition arguments_unchanged (freq : option Z) (h : heap) : Prop :=
  let h' := (build_local_timeseries freq h).2 in
  h_events h' = h_events h
  ∧ h_grid_data h' = h_grid_data h
  ∧ h_relative_grid_indices h' = h_relative_grid_indices h.

Definition invalid_input (h : heap) : Prop :=
  not_tabular (h_events h) ∨ not_tabular (h_grid_data h)
  ∨ index_not_increasing (h_events h) ∨ index_not_increasing (h_grid_data h)
  ∨ items_of (h_relative_grid_indices h) = [].

(** ** Example inputs *)

(** Four grid bars at timestamps 1..4 with one column, two events at 2 and
    4 with one indicator column. *)
Definition grid_example : DataFrame :=
  mkFrame ["response"%string]
    [(1, [1%float]); (2, [2%float]); (3, [3%float]); (4, [4%float])].

Definition events_example : DataFrame :=
  mkFrame ["indicator"%string] [(2, [1%float]); (4, [1%float])].

Definition call_example (indices : iterable)
  (info : option (gmap Z (gmap string info_value))) : heap :=
  mkHeap (PyDataFrame events_example) (PyDataFrame grid_example) indices info [].

(** The options that [reindex] accepts: pandas rejects a [limit] that comes
    without a [method], and a [limit] that is not positive. *)
Definition kwargs_accepted (kwargs : reindex_kwargs) : Prop :=
  match kw_limit kwargs with
  | None => True
  | Some limit => is_Some (kw_method kwargs) ∧ (0 < limit)%nat
  end.

#[global] Instance kwargs_accepted_dec kwargs : Decision (kwargs_accepted kwargs).
Proof. unfold kwargs_accepted. destruct (kw_limit kwargs); apply _. Defined.

(** One event at timestamp 2, to be reindexed on the four grid bars. *)
Definition event_example : DataFrame :=
  mkFrame ["indicator"%string] [(2, [1%float])].

(** A design matrix with one predictor and three observations, and a
    response that is twice the predictor. *)
Definition x_example : DataFrame :=
  mkFrame ["x"%string] [(1, [1%float]); (2, [2%float]); (3, [3%float])].

Definition y_example : Series := [(1, 2%float); (2, 4%float); (3, 6%float)].





(** ** Further notions: the table and the log that a call produces *)

(** The relative grid indices in ascending order, each once: the keys of
    the dict [relative_data] after the loop. *)
Definition distinct_sorted (l : list Z) : list Z :=
  merge_sort Z.le (remove_dups l).

(** The table that [build_local_timeseries] returns for the given indices:
    for each distinct index in ascending order, the rows selected at that
    index, keyed by (index, event timestamp). *)
Definition local_timeseries (events_index : list Z) (grid_data : DataFrame)
  (freq : option Z) (indices : list Z) : MultiFrame :=
  mkFrame (columns grid_data)
    (distinct_sorted indices ≫= λ k,
       prod_map (pair k) id <$> rows (data_at events_index grid_data freq k)).

Definition low_coverage (events_index : list Z) (grid_data : DataFrame)
  (freq : option Z) (k : Z) : Prop :=
  Qltb (coverage events_index grid_data freq k) (9 # 10) = true.

#[global] Instance low_coverage_dec events_index grid_data freq k :
  Decision (low_coverage events_index grid_data freq k).
Proof. unfold low_coverage. apply _. Defined.

(** The warnings logged while the loop runs over the indices [l]. *)
Definition warnings (events_index : list Z) (grid_data : DataFrame)
  (freq : option Z) (l : list Z) : list log_record :=
  (λ k, Warning (coverage events_index grid_data freq k) (- k))
  <$> filter (low_coverage events_index grid_data freq) l.

(** The inputs on which a call returns. *)
Definition call_returns (freq : option Z) (h : heap) : Prop :=
  ∃ events grid_data,
    h_events h = PyDataFrame events
    ∧ h_grid_data h = PyDataFrame grid_data
    ∧ Sorted Z.lt (index events)
    ∧ Sorted Z.lt (index grid_data)
    ∧ h_info h = None
    ∧ items_of (h_relative_grid_indices h) ≠ []
    ∧ Forall (λ k, is_Ok (DataFrame_shift grid_data (- k) freq)
                   ∧ hits (index events) grid_data freq k ≠ [])
             (items_of (h_relative_grid_indices h)).

(** The keys that [regression] writes to its [info] dict. *)
Definition regression_info_keys : list string :=
  ["nobs (resp)=%d"; "y_mean=%f"; "tss=%f"; "beta=%s"; "rss=%f"; "r^2=%f";
   "sigma_hat_sq=%s"; "beta_hat_covar=%s"; "beta_hat_z_score=%s"]%string.

(** * Properties *)

(** ** Running a call *)

Lemma bind_run {S A B} (m : ST S A) (f : A → ST S B) (s : S) :
  (m ≫= f) s =
  match m s with
  | (Ok a, s') => f a s'
  | (Raise e, s') => (Raise e, s')
  end.
Proof. reflexivity. Qed.

Lemma bind_lift {S A B} (r : res A) (f : A → ST S B) (s : S) :
  (lift r ≫= f) s =
  match r with
  | Ok a => f a s
  | Raise e => (Raise e, s)
  end.
Proof. rewrite bind_run. unfold lift. by destruct r. Qed.

Lemma bind_Ok_inv {S A B} (m : ST S A) (f : A → ST S B) s b s' :
  (m ≫= f) s = (Ok b, s') →
  ∃ a s1, m s = (Ok a, s1) ∧ f a s1 = (Ok b, s').
Proof.
  rewrite bind_run. destruct (m s) as [[a|e] s1]; [eauto | discriminate].
Qed.

Lemma heap_eta (h : heap) :
  mkHeap (h_events h) (h_grid_data h) (h_relative_grid_indices h)
         (h_info h) (h_log h) = h.
Proof. by destruct h. Qed.

Lemma dassert_true_iff (b : bool) : dassert b = Ok () ↔ b = true.
Proof. destruct b; simpl; split; congruence. Qed.

(** ** Index operations *)

Lemma intersection_subseteq idx other : intersection idx other ⊆ idx.
Proof. intros t. unfold intersection. rewrite list_elem_of_filter. tauto. Qed.

Lemma elem_of_intersection idx other t :
  t ∈ intersection idx other ↔ t ∈ idx ∧ t ∈ other.
Proof. unfold intersection. rewrite list_elem_of_filter. tauto. Qed.

Lemma filter_none {A} (P : A → Prop) `{!∀ x, Decision (P x)} (l : list A) :
  Forall (λ x, ¬ P x) l → filter P l = [].
Proof.
  induction 1 as [|x l Hx _ IH]; [done|].
  by rewrite filter_cons_False.
Qed.

(** The expression [intersection.difference(idx)] of [_shift_and_select]
    is the empty index whatever the tables are. *)
Lemma difference_of_intersection_empty idx other :
  difference (intersection idx other) idx = [].
Proof.
  apply filter_none, Forall_forall. intros t Ht Hn.
  by apply Hn, (intersection_subseteq idx other).
Qed.

Lemma Sorted_lt_filter (P : Z → Prop) `{!∀ x, Decision (P x)} (l : list Z) :
  Sorted Z.lt l → Sorted Z.lt (filter P l).
Proof.
  intros Hs. apply Sorted_StronglySorted in Hs; [|apply _].
  apply StronglySorted_Sorted.
  induction Hs as [|x l Hl IH Hx]; [constructor|].
  rewrite filter_cons. case_decide; [|done].
  constructor; [done|].
  apply Forall_forall. intros y [_ Hy]%list_elem_of_filter.
  by eapply Forall_forall in Hx.
Qed.

Lemma row_at_is_Some {K} `{EqDecision K} (rs : list (K * list float)) (t : K) :
  t ∈ rs.*1 → is_Some (row_at rs t).
Proof.
  induction rs as [|[t' r] rs IH]; simpl.
  - by intros ?%elem_of_nil.
  - intros [->|Hin]%elem_of_cons; case_decide; eauto; congruence.
Qed.

Lemma row_at_elem_of {K} `{EqDecision K} (rs : list (K * list float)) t r :
  row_at rs t = Some r → (t, r) ∈ rs.
Proof.
  induction rs as [|[t' r'] rs IH]; simpl; [done|].
  case_decide; intros ?; simplify_eq; [left | right; auto].
Qed.

Lemma loc_selected (df : DataFrame) (labels : list Z) :
  labels ⊆ index df → loc df labels = Ok (selected df labels).
Proof.
  intros Hsub. unfold loc, selected.
  erewrite mapM_Some_2; [done|].
  apply Forall2_fmap_r, Forall_Forall2_diag, Forall_forall.
  intros t Ht. destruct (row_at_is_Some (rows df) t) as [r Hr].
  { by apply Hsub. }
  simpl. by rewrite Hr.
Qed.

Lemma index_selected df labels : index (selected df labels) = labels.
Proof.
  unfold index, selected; simpl. rewrite <- list_fmap_compose.
  by rewrite <- (list_fmap_id labels) at 2.
Qed.

Lemma index_data_at eidx gd freq k :
  index (data_at eidx gd freq k) = hits eidx gd freq k.
Proof. apply index_selected. Qed.

Lemma hits_nonempty_length eidx gd freq k :
  hits eidx gd freq k ≠ [] → length eidx ≠ 0%nat.
Proof. intros Hne Hl. apply Hne. by destruct eidx. Qed.

(** ** [_shift_and_select] *)

Lemma add_log_info r h : h_info (add_log r h) = h_info h.
Proof. reflexivity. Qed.

Lemma maybe_warn_info pct p h : h_info (maybe_warn pct p h) = h_info h.
Proof. unfold maybe_warn. by case_match. Qed.

Lemma maybe_warn_events pct p h : h_events (maybe_warn pct p h) = h_events h.
Proof. unfold maybe_warn. by case_match. Qed.

Lemma maybe_warn_grid_data pct p h :
  h_grid_data (maybe_warn pct p h) = h_grid_data h.
Proof. unfold maybe_warn. by case_match. Qed.

Lemma maybe_warn_indices pct p h :
  h_relative_grid_indices (maybe_warn pct p h) = h_relative_grid_indices h.
Proof. unfold maybe_warn. by case_match. Qed.

Lemma DataFrame_shift_in_range gd p freq :
  shift_in_range gd p freq → DataFrame_shift gd p freq = Ok (shift gd p freq).
Proof.
  intros Hok. unfold DataFrame_shift. case_decide; [done|].
  by rewrite decide_True.
Qed.

(** When the call returns it returns the shifted table; its only failure is
    the overflow. *)
Lemma DataFrame_shift_cases gd p freq :
  DataFrame_shift gd p freq = Ok (shift gd p freq)
  ∨ DataFrame_shift gd p freq = Raise OverflowError.
Proof. unfold DataFrame_shift. repeat case_decide; auto. Qed.

(** A shift that fails does so before anything is selected or logged. *)
Lemma shift_and_select_overflow eidx gd p freq info h e :
  DataFrame_shift gd p freq = Raise e →
  _shift_and_select eidx gd p freq info h = (Raise e, h).
Proof.
  intros Hs. unfold _shift_and_select. by rewrite bind_lift, Hs.
Qed.

Lemma index_failure_None eidx gd freq k :
  index_failure eidx gd freq k = None ↔
  is_Ok (DataFrame_shift gd (- k) freq) ∧ hits eidx gd freq k ≠ [].
Proof.
  unfold index_failure.
  destruct (DataFrame_shift gd (- k) freq) as [s|e] eqn:Hs.
  - case_decide; split; try done; [by intros []|]. intros _. split; [|done].
    by eexists.
  - split; [done|]. by intros [[s [=]] _].
Qed.

Lemma index_failure_Some eidx gd freq k e :
  index_failure eidx gd freq k = Some e →
  e = AssertionError ∨ e = OverflowError.
Proof.
  unfold index_failure.
  destruct (DataFrame_shift_cases gd (- k) freq) as [-> | ->].
  - case_decide; [|done]. intros [= <-]. by left.
  - intros [= <-]. by right.
Qed.

Lemma index_failure_in_range eidx gd freq k :
  shift_in_range gd (- k) freq →
  index_failure eidx gd freq k =
  if decide (hits eidx gd freq k = []) then Some AssertionError else None.
Proof.
  intros Hok. unfold index_failure. by rewrite DataFrame_shift_in_range.
Qed.

(** Without an [info] dict the call fails exactly when the shift leaves the
    range or the intersection is empty; otherwise it returns the rows at
    the intersecting timestamps and logs a warning when fewer than 90% of
    the events are covered. *)
Lemma shift_and_select_no_info eidx gd k freq h :
  _shift_and_select eidx gd (- k) freq None h =
  match index_failure eidx gd freq k with
  | Some e => (Raise e, h)
  | None => (Ok (data_at eidx gd freq k, None),
             maybe_warn (coverage eidx gd freq k) (- k) h)
  end.
Proof.
  unfold index_failure.
  destruct (DataFrame_shift_cases gd (- k) freq) as [Hs|Hs]; rewrite Hs.
  2:{ by apply shift_and_select_overflow. }
  unfold _shift_and_select.
  rewrite bind_lift, Hs.
  unfold data_at, coverage, maybe_warn.
  fold (hits eidx gd freq k).
  case_decide as Hh.
  - rewrite Hh, bind_lift. reflexivity.
  - rewrite bind_lift, bool_decide_true by done. simpl.
    rewrite bind_lift. unfold pct_found_of.
    rewrite decide_False by by apply (hits_nonempty_length eidx gd freq k).
    rewrite bind_run.
    rewrite loc_selected.
    2:{ intros t Ht. by apply elem_of_intersection in Ht as [_ Ht]. }
    by destruct (Qltb _ _).
Qed.


(** The module binds no name [mode]. *)
Lemma load_global_mode : load_global "mode" = Raise (NameError "mode").
Proof. reflexivity. Qed.

(** With an [info] dict the call never returns: it fails on the empty
    intersection, on a dict that is not empty, and otherwise on the name
    [mode], which the module does not define.  The caller's [info] is the
    same in each case. *)
Lemma shift_and_select_with_info eidx gd k freq d h :
  _shift_and_select eidx gd (- k) freq (Some d) h =
  match index_failure eidx gd freq k with
  | Some e => (Raise e, h)
  | None =>
      (Raise (if decide (d = ∅) then NameError "mode" else AssertionError),
       maybe_warn (coverage eidx gd freq k) (- k) h)
  end.
Proof.
  unfold index_failure.
  destruct (DataFrame_shift_cases gd (- k) freq) as [Hs|Hs]; rewrite Hs.
  2:{ by apply shift_and_select_overflow. }
  unfold _shift_and_select.
  rewrite bind_lift, Hs.
  unfold data_at, coverage, maybe_warn.
  fold (hits eidx gd freq k).
  case_decide as Hh.
  - rewrite Hh, bind_lift. reflexivity.
  - rewrite bind_lift, bool_decide_true by done. simpl.
    rewrite bind_lift. unfold pct_found_of.
    rewrite decide_False by by apply (hits_nonempty_length eidx gd freq k).
    rewrite bind_run.
    rewrite loc_selected.
    2:{ intros t Ht. by apply elem_of_intersection in Ht as [_ Ht]. }
    destruct (Qltb _ _); simpl; rewrite !bind_lift;
      case_decide; subst;
      rewrite ?bool_decide_true, ?bool_decide_false by done; simpl;
      by rewrite ?bind_lift, ?load_global_mode.
Qed.

(** ** The loop of [build_local_timeseries] *)

Lemma for_idx_no_info eidx gd freq l rd h :
  h_info h = None →
  Forall (λ k, index_failure eidx gd freq k = None) l →
  for_idx eidx gd freq l rd h =
  (Ok (foldl (λ rd k, dict_set k (data_at eidx gd freq k) rd) rd l),
   foldl (λ h k, maybe_warn (coverage eidx gd freq k) (- k) h) h l).
Proof.
  intros Hi Hl. induction Hl as [|k l Hk _ IH] in rd, h, Hi |- *; [done|].
  simpl. rewrite bind_run. simpl. rewrite Hi, bind_run.
  rewrite shift_and_select_no_info, Hk.
  simpl. rewrite bind_run. simpl. apply IH. by rewrite maybe_warn_info.
Qed.

(** Without an [info] dict the loop stops at the first index that fails,
    with the failure of that index, and gathers the tables otherwise. *)
Lemma for_idx_no_info_result eidx gd freq l rd h :
  h_info h = None →
  (for_idx eidx gd freq l rd h).1 =
  match first_failure eidx gd freq l with
  | Some e => Raise e
  | None => Ok (gather eidx gd freq rd l)
  end.
Proof.
  intros Hi. unfold first_failure.
  induction l as [|k l IH] in rd, h, Hi |- *; [done|].
  cbn [for_idx omap list_omap]. rewrite bind_run. cbn [get_heap].
  rewrite Hi, bind_run, shift_and_select_no_info.
  destruct (index_failure eidx gd freq k) as [e|]; [done|].
  cbn [snd fst]. rewrite bind_run. cbn [mret ST_ret].
  rewrite IH by by rewrite maybe_warn_info. done.
Qed.

Lemma first_failure_None eidx gd freq l :
  first_failure eidx gd freq l = None ↔
  Forall (λ k, index_failure eidx gd freq k = None) l.
Proof.
  unfold first_failure. induction l as [|k l IH]; [done|].
  cbn [omap list_omap].
  destruct (index_failure eidx gd freq k) as [e|] eqn:Hk.
  - split; [done|]. intros [? _]%Forall_cons. congruence.
  - rewrite IH. split; [by constructor|by intros [_ ?]%Forall_cons].
Qed.

Lemma first_failure_in_range eidx gd freq l e :
  Forall (λ k, shift_in_range gd (- k) freq) l →
  first_failure eidx gd freq l = Some e → e = AssertionError.
Proof.
  unfold first_failure. induction 1 as [|k l Hk _ IH]; [done|].
  cbn [omap list_omap].
  destruct (index_failure eidx gd freq k) as [e'|] eqn:Hf; [|done].
  intros [= ->]. rewrite index_failure_in_range in Hf by done.
  case_decide; congruence.
Qed.

Lemma for_idx_with_info eidx gd freq k l rd h :
  is_Some (h_info h) →
  ∃ e h', for_idx eidx gd freq (k :: l) rd h = (Raise e, h')
          ∧ (e = AssertionError ∨ e = NameError "mode" ∨ e = OverflowError)
          ∧ h_info h' = h_info h
          ∧ h_events h' = h_events h
          ∧ h_grid_data h' = h_grid_data h
          ∧ h_relative_grid_indices h' = h_relative_grid_indices h.
Proof.
  intros [i Hi]. simpl. rewrite bind_run. simpl. rewrite Hi, bind_run.
  rewrite shift_and_select_with_info.
  destruct (index_failure eidx gd freq k) as [e|] eqn:Hf.
  - apply index_failure_Some in Hf. do 2 eexists. split; [done|].
    split; [|done]. tauto.
  - rewrite decide_True by done. do 2 eexists. split; [done|].
    rewrite maybe_warn_info, maybe_warn_events, maybe_warn_grid_data,
      maybe_warn_indices. eauto 10.
Qed.

(** The loop reads and writes neither the tables nor the caller's
    [relative_grid_indices]. *)
Lemma for_idx_frame eidx gd freq l rd h :
  let h' := (for_idx eidx gd freq l rd h).2 in
  h_events h' = h_events h
  ∧ h_grid_data h' = h_grid_data h
  ∧ h_relative_grid_indices h' = h_relative_grid_indices h
  ∧ h_info h' = h_info h.
Proof.
  simpl. destruct l as [|k l]; [done|].
  destruct (decide (is_Some (h_info h))) as [Hi|Hi].
  - destruct (for_idx_with_info eidx gd freq k l rd h Hi)
      as (e & h' & -> & _ & Hh).
    simpl. tauto.
  - apply eq_None_not_Some in Hi. revert Hi.
    generalize (k :: l). clear k l. intros l Hi.
    induction l as [|k l IH] in rd, h, Hi |- *; [done|].
    simpl. rewrite bind_run. simpl. rewrite Hi, bind_run.
    rewrite shift_and_select_no_info.
    destruct (index_failure eidx gd freq k) as [e|]; [done|].
    simpl. rewrite bind_run. simpl.
    destruct (IH (dict_set k (data_at eidx gd freq k) rd)
                 (maybe_warn (coverage eidx gd freq k) (- k) h))
      as (-> & -> & -> & ->); [by rewrite maybe_warn_info|].
    by rewrite maybe_warn_info, maybe_warn_events, maybe_warn_grid_data,
      maybe_warn_indices.
Qed.

(** ** [build_local_timeseries]: the assertions on the inputs *)

Lemma set_relative_grid_indices_same h :
  set_relative_grid_indices (h_relative_grid_indices h) h = h.
Proof. by destruct h. Qed.

Lemma tables_valid_true h :
  tables_valid h = true ↔
  ∃ events grid_data,
    h_events h = PyDataFrame events ∧ h_grid_data h = PyDataFrame grid_data
    ∧ Sorted Z.lt (index events) ∧ Sorted Z.lt (index grid_data).
Proof.
  unfold tables_valid. split.
  - destruct (h_events h) as [ev|]; [|done].
    destruct (h_grid_data h) as [gd|]; [|done].
    intros [?%bool_decide_eq_true ?%bool_decide_eq_true]%andb_true_iff.
    eauto 10.
  - intros (ev & gd & -> & -> & ? & ?).
    by rewrite !bool_decide_true.
Qed.

(** A call whose tables fail an assertion, or whose indices are empty,
    raises [AssertionError] and leaves every object as it was. *)
Lemma build_local_timeseries_rejects freq h :
  tables_valid h = false ∨ items_of (h_relative_grid_indices h) = [] →
  build_local_timeseries freq h = (Raise AssertionError, h).
Proof.
  intros Hbad. unfold build_local_timeseries, tables_valid in *.
  rewrite bind_run. simpl.
  destruct (h_events h) as [ev|]; simpl; [|done].
  rewrite bind_lift. simpl.
  destruct (h_grid_data h) as [gd|]; simpl; [|done].
  rewrite bind_lift. unfold dassert_monotonic_index.
  destruct (bool_decide (Sorted Z.lt (index ev))); simpl; [|done].
  rewrite bind_lift.
  destruct (bool_decide (Sorted Z.lt (index gd))); simpl; [|done].
  destruct Hbad as [?|Hl]; [done|].
  rewrite bind_run. unfold as_list.
  destruct h as [e g [l|l|l] i lg]; simpl in *; subst l; done.
Qed.

(** A call that passes these assertions sorts the indices, runs the loop,
    concatenates and checks the order of the result. *)
Lemma build_local_timeseries_accepts freq h events grid_data :
  h_events h = PyDataFrame events →
  h_grid_data h = PyDataFrame grid_data →
  Sorted Z.lt (index events) →
  Sorted Z.lt (index grid_data) →
  items_of (h_relative_grid_indices h) ≠ [] →
  build_local_timeseries freq h =
  match for_idx (index events) grid_data freq
          (merge_sort Z.le (items_of (h_relative_grid_indices h))) []
          (set_relative_grid_indices
             (indices_after_call (h_relative_grid_indices h)) h) with
  | (Ok relative_data, h') =>
      match concat relative_data with
      | Ok df =>
          if bool_decide (Sorted key_lt (index df)) then (Ok df, h')
          else (Raise AssertionError, h')
      | Raise e => (Raise e, h')
      end
  | (Raise e, h') => (Raise e, h')
  end.
Proof.
  intros He Hg Hse Hsg Hl. unfold build_local_timeseries.
  rewrite bind_run. simpl. rewrite He, Hg. simpl.
  rewrite !bind_lift. simpl.
  unfold dassert_monotonic_index at 1 2.
  rewrite !bool_decide_true by done. simpl.
  rewrite bind_run.
  assert (∀ l (h1 : heap) aliased,
    l ≠ [] →
    (lift (dassert (bool_decide ((aliased, l).2 ≠ []))) ≫= λ _ : (),
      list_sort (aliased, l).1 (aliased, l).2 ≫= λ relative_grid_indices,
        for_idx (index events) grid_data freq relative_grid_indices [] ≫=
        λ relative_data, lift (concat relative_data) ≫= λ df,
          lift (dassert_monotonic_index key_lt (index df)) ≫= λ _ : (),
            mret df) h1 =
    match for_idx (index events) grid_data freq (merge_sort Z.le l) []
            (if aliased
             then set_relative_grid_indices (PyList (merge_sort Z.le l)) h1
             else h1) with
    | (Ok relative_data, h') =>
        match concat relative_data with
        | Ok df =>
            if bool_decide (Sorted key_lt (index df)) then (Ok df, h')
            else (Raise AssertionError, h')
        | Raise e => (Raise e, h')
        end
    | (Raise e, h') => (Raise e, h')
    end) as Hrest.
  { intros l h1 aliased Hne. rewrite bind_lift. simpl.
    rewrite bool_decide_true by done. simpl.
    rewrite bind_run. unfold list_sort. rewrite bind_run.
    destruct aliased; simpl; rewrite bind_run;
      (destruct (for_idx _ _ _ _ _ _) as [[rd|e] h2]; [|done]);
      rewrite bind_lift;
      (destruct (concat rd) as [df|e]; [|done]);
      rewrite bind_lift; unfold dassert_monotonic_index;
      by destruct (bool_decide _). }
  unfold as_list.
  destruct (h_relative_grid_indices h) as [l|l|l] eqn:Hit; simpl in *.
  - by rewrite Hrest.
  - rewrite Hrest by done. by rewrite <- Hit, set_relative_grid_indices_same.
  - by rewrite Hrest.
Qed.

(** ** The dict of per-index tables and its concatenation *)

Lemma dict_set_keys {V} (k : Z) (v : V) (d : list (Z * V)) :
  (dict_set k v d).*1 = if decide (k ∈ d.*1) then d.*1 else d.*1 ++ [k].
Proof.
  induction d as [|[k' v'] d IH].
  { destruct (decide (k ∈ ([] : list (Z * V)).*1)) as [Hin|]; [|done].
    by apply elem_of_nil in Hin. }
  cbn [dict_set].
  - destruct (decide (k' = k)) as [->|Hne]; rewrite !fmap_cons; cbn [fst].
    + clear IH. case_decide as Hin; [done|]. destruct Hin. left.
    + rewrite IH. clear IH. destruct (decide (k ∈ d.*1)) as [Hin|Hin].
      * case_decide as Hin'; [done|]. destruct Hin'. by right.
      * case_decide as Hin'; [|done].
        apply elem_of_cons in Hin' as [?|?]; congruence.
Qed.

Lemma dict_set_Forall {V} (P : Z * V → Prop) k v d :
  P (k, v) → Forall P d → Forall P (dict_set k v d).
Proof.
  intros Hk. induction 1 as [|[k' v'] d Hx Hd IH]; simpl.
  - by repeat constructor.
  - case_decide; constructor; done.
Qed.

Lemma dict_set_lookup {V} k (v : V) d : (k, v) ∈ dict_set k v d.
Proof.
  induction d as [|[k' v'] d IH]; simpl; [left|].
  case_decide; [left | by right].
Qed.

Lemma dict_set_sorted {V} (k : Z) (v : V) (d : list (Z * V)) :
  StronglySorted Z.lt d.*1 → Forall (λ k', k' ≤ k) d.*1 →
  StronglySorted Z.lt (dict_set k v d).*1 ∧ Forall (λ k', k' ≤ k) (dict_set k v d).*1.
Proof.
  intros Hs Hle. rewrite dict_set_keys. case_decide as Hin; [done|].
  split.
  - apply StronglySorted_app_2; [|done|by repeat constructor].
    intros k1 k2 Hk1 Hk2%list_elem_of_singleton. subst k2.
    eapply Forall_forall in Hle; [|done].
    assert (k1 ≠ k) by congruence. lia.
  - apply Forall_app. split; [done|]. repeat constructor. lia.
Qed.

Lemma gather_sorted eidx gd freq l rd :
  StronglySorted Z.le l →
  StronglySorted Z.lt rd.*1 →
  (∀ k k', k ∈ rd.*1 → k' ∈ l → k ≤ k') →
  gathered eidx gd freq rd →
  StronglySorted Z.lt (gather eidx gd freq rd l).*1
  ∧ gathered eidx gd freq (gather eidx gd freq rd l).
Proof.
  intros Hl. induction Hl as [|k l Hl IH Hk] in rd |- *; intros Hrd Hle Hg.
  { done. }
  simpl. destruct (dict_set_sorted k (data_at eidx gd freq k) rd) as [Hs Hb].
  { done. }
  { apply Forall_forall. intros k' Hk'. apply Hle; [done|left]. }
  apply IH; [done| |by apply dict_set_Forall].
  intros k1 k2 Hk1 Hk2. eapply Forall_forall in Hb; [|done].
  eapply Forall_forall in Hk; [|done]. lia.
Qed.

Lemma gather_keys eidx gd freq l rd k :
  k ∈ (gather eidx gd freq rd l).*1 ↔ k ∈ rd.*1 ∨ k ∈ l.
Proof.
  induction l as [|k' l IH] in rd |- *; simpl.
  { rewrite elem_of_nil. tauto. }
  rewrite IH, dict_set_keys, elem_of_cons. clear IH.
  destruct (decide (k' ∈ rd.*1)) as [Hin|Hin].
  - split; [tauto|]. intros [?|[->|?]]; tauto.
  - rewrite elem_of_app, list_elem_of_singleton. tauto.
Qed.

Lemma gather_nonempty eidx gd freq l rd :
  l ≠ [] → gather eidx gd freq rd l ≠ [].
Proof.
  intros Hl Hnil. destruct l as [|k l]; [done|].
  assert (k ∈ (gather eidx gd freq rd (k :: l)).*1) as Hk.
  { apply gather_keys. right. left. }
  rewrite Hnil in Hk. by apply elem_of_nil in Hk.
Qed.

Lemma index_concat (d : list (Z * DataFrame)) (df : MultiFrame) :
  concat d = Ok df → index df = d ≫= λ kf, pair kf.1 <$> index kf.2.
Proof.
  assert ((d ≫= λ kf, prod_map (pair kf.1) id <$> rows kf.2).*1
          = d ≫= λ kf : Z * DataFrame, pair kf.1 <$> index kf.2) as Hd.
  { induction d as [|[k f] d IH]; [done|].
    rewrite !bind_cons, fmap_app, IH. f_equal. unfold index. simpl.
    rewrite <- !list_fmap_compose. by apply list_fmap_ext. }
  unfold concat. destruct d as [|[k f] d]; [done|].
  by intros [= <-].
Qed.

Lemma key_lt_le a b : key_lt a b → key_le a b.
Proof. unfold key_lt, key_le. lia. Qed.

(** Tables with strictly increasing indexes under strictly increasing keys
    concatenate to a strictly increasing composite index. *)
Lemma concat_keys_sorted (d : list (Z * DataFrame)) :
  StronglySorted Z.lt d.*1 →
  Forall (λ kf, Sorted Z.lt (index kf.2)) d →
  StronglySorted key_lt (d ≫= λ kf, pair kf.1 <$> index kf.2).
Proof.
  induction d as [|[k f] d IH]; [constructor|].
  rewrite fmap_cons, StronglySorted_cons, Forall_cons, bind_cons.
  intros [Hk Hd] [Hf Hfs]. simpl in *.
  apply StronglySorted_app_2; [| |by apply IH].
  - intros [k1 t1] [k2 t2] [t [[= -> ->] _]]%list_elem_of_fmap.
    intros [[k' f'] [Hin Hd']]%list_elem_of_bind.
    apply list_elem_of_fmap in Hin as [t' [[= -> ->] _]].
    left. simpl. eapply Forall_forall in Hk; [done|].
    apply list_elem_of_fmap. by exists (k', f').
  - apply (StronglySorted_fmap _ Z.lt).
    + intros t1 t2 ?. by right.
    + by apply Sorted_StronglySorted; [apply _|].
Qed.

Lemma gathered_indexes_sorted eidx gd freq rd :
  Sorted Z.lt eidx → gathered eidx gd freq rd →
  Forall (λ kf, Sorted Z.lt (index kf.2)) rd.
Proof.
  intros Hs Hg. eapply Forall_impl; [exact Hg|].
  intros [k f] ->. simpl.
  rewrite index_data_at. by apply Sorted_lt_filter.
Qed.

(** ** When the call returns *)

(** Without an [info] dict, on valid tables, and when every index has a
    shift in range and a non-empty intersection, the call returns the concatenation of the
    tables selected at each index; the final assertion on the order of the
    result does not fail. *)
Lemma build_local_timeseries_returns freq h events grid_data :
  h_events h = PyDataFrame events →
  h_grid_data h = PyDataFrame grid_data →
  Sorted Z.lt (index events) →
  Sorted Z.lt (index grid_data) →
  h_info h = None →
  items_of (h_relative_grid_indices h) ≠ [] →
  Forall (λ k, index_failure (index events) grid_data freq k = None)
         (items_of (h_relative_grid_indices h)) →
  let sorted := merge_sort Z.le (items_of (h_relative_grid_indices h)) in
  let relative_data := gather (index events) grid_data freq [] sorted in
  ∃ df,
    concat relative_data = Ok df
    ∧ build_local_timeseries freq h =
      (Ok df,
       foldl (λ h k, maybe_warn (coverage (index events) grid_data freq k)
                       (- k) h)
         (set_relative_grid_indices
            (indices_after_call (h_relative_grid_indices h)) h)
         sorted).
Proof.
  intros He Hg Hse Hsg Hi Hne Hall sorted rd.
  assert (sorted ≡ₚ items_of (h_relative_grid_indices h)) as Hperm
    by apply merge_sort_Permutation.
  assert (sorted ≠ []) as Hsne.
  { intros Hnil. rewrite Hnil in Hperm. by apply Permutation_nil in Hperm. }
  rewrite (build_local_timeseries_accepts freq h events grid_data) by done.
  rewrite for_idx_no_info; [|done|by unfold sorted in Hperm; rewrite Hperm].
  fold sorted. fold (gather (index events) grid_data freq [] sorted). fold rd.
  destruct (concat rd) as [df|e] eqn:Hc.
  2:{ unfold concat in Hc. destruct rd as [|[] ?] eqn:Hrd; [|done].
      by apply gather_nonempty in Hrd. }
  exists df. split; [done|].
  rewrite bool_decide_true; [done|].
  apply StronglySorted_Sorted. rewrite (index_concat rd df Hc).
  destruct (gather_sorted (index events) grid_data freq sorted []) as [Hs Hgd].
  - apply StronglySorted_merge_sort; apply _.
  - constructor.
  - intros k k' Hk. inversion Hk.
  - constructor.
  - apply concat_keys_sorted; [done|].
    by apply (gathered_indexes_sorted (index events) grid_data freq).
Qed.

(** ** The loop does not depend on the caller's [relative_grid_indices] *)

Lemma maybe_warn_set_indices it pct p h :
  maybe_warn pct p (set_relative_grid_indices it h)
  = set_relative_grid_indices it (maybe_warn pct p h).
Proof. unfold maybe_warn. by destruct (Qltb _ _). Qed.

Lemma for_idx_set_indices it eidx gd freq l rd h :
  for_idx eidx gd freq l rd (set_relative_grid_indices it h) =
  (let (r, h') := for_idx eidx gd freq l rd h in
   (r, set_relative_grid_indices it h')).
Proof.
  induction l as [|k l IH] in rd, h |- *; [done|].
  simpl. rewrite !bind_run. simpl.
  destruct (h_info h) as [i|] eqn:Hi; rewrite !bind_run.
  - rewrite !shift_and_select_with_info.
    destruct (index_failure eidx gd freq k) as [e|]; [done|].
    by rewrite maybe_warn_set_indices.
  - rewrite !shift_and_select_no_info.
    destruct (index_failure eidx gd freq k) as [e|]; [done|].
    simpl. rewrite !bind_run. simpl.
    by rewrite maybe_warn_set_indices, IH.
Qed.

Lemma merge_sort_Permutation_eq (l1 l2 : list Z) :
  l1 ≡ₚ l2 → merge_sort Z.le l1 = merge_sort Z.le l2.
Proof.
  intros Hp. apply (Sorted_unique Z.le).
  - apply Sorted_merge_sort, _.
  - apply Sorted_merge_sort, _.
  - by rewrite !merge_sort_Permutation.
Qed.

Lemma tables_valid_set_indices it h :
  tables_valid (set_relative_grid_indices it h) = tables_valid h.
Proof. reflexivity. Qed.

Lemma set_indices_twice it it' h :
  set_relative_grid_indices it (set_relative_grid_indices it' h)
  = set_relative_grid_indices it h.
Proof. reflexivity. Qed.

(** The result of a call is a function of the tables, of [info], and of
    the sorted indices. *)
Lemma build_local_timeseries_result freq h events grid_data :
  h_events h = PyDataFrame events →
  h_grid_data h = PyDataFrame grid_data →
  Sorted Z.lt (index events) →
  Sorted Z.lt (index grid_data) →
  items_of (h_relative_grid_indices h) ≠ [] →
  (build_local_timeseries freq h).1 =
  match (for_idx (index events) grid_data freq
           (merge_sort Z.le (items_of (h_relative_grid_indices h))) [] h).1 with
  | Ok relative_data =>
      match concat relative_data with
      | Ok df =>
          if bool_decide (Sorted key_lt (index df)) then Ok df
          else Raise AssertionError
      | Raise e => Raise e
      end
  | Raise e => Raise e
  end.
Proof.
  intros He Hg Hse Hsg Hne.
  rewrite (build_local_timeseries_accepts freq h events grid_data) by done.
  rewrite for_idx_set_indices.
  destruct (for_idx _ _ _ _ _ h) as [[rd|e] h']; [|done]. simpl.
  destruct (concat rd) as [df|e]; [|done].
  by destruct (bool_decide _).
Qed.

(** ** Claims on [build_local_timeseries] *)

Lemma invalid_input_rejected h :
  invalid_input h →
  tables_valid h = false ∨ items_of (h_relative_grid_indices h) = [].
Proof.
  intros Hbad. destruct (tables_valid h) eqn:Hv; [|by left].
  apply tables_valid_true in Hv as (ev & gd & He & Hg & Hse & Hsg).
  destruct Hbad as [Hn|[Hn|[(df & Hdf & Hns)|[(df & Hdf & Hns)|Hl]]]].
  - by destruct (Hn ev).
  - by destruct (Hn gd).
  - rewrite He in Hdf. by simplify_eq.
  - rewrite Hg in Hdf. by simplify_eq.
  - by right.
Qed.

(** C8: a call where [events] or [grid_data] is not a table, or where the
    index of either is not strictly increasing, or where
    [relative_grid_indices] is empty, fails with an assertion error before
    anything else happens: every object of the caller, the log included, is
    as it was, so no input was coerced. *)
Theorem build_local_timeseries_precondition_violation freq h :
  invalid_input h →
  build_local_timeseries freq h = (Raise AssertionError, h).
Proof.
  intros Hbad. by apply build_local_timeseries_rejects, invalid_input_rejected.
Qed.

Lemma build_local_timeseries_precondition_violation_witness :
  let h := mkHeap (PyDataFrame (mkFrame ["indicator"%string]
                                  [(4, [1%float]); (2, [1%float])]))
                  (PyDataFrame grid_example) (PyTuple [0; 1]) None [] in
  invalid_input h
  ∧ build_local_timeseries None h = (Raise AssertionError, h).
Proof.
  intros h.
  assert (invalid_input h) as Hbad.
  { right. right. left. eexists. split; [reflexivity|].
    apply (bool_decide_eq_false_1 _). vm_compute. reflexivity. }
  split; [exact Hbad|].
  exact (build_local_timeseries_precondition_violation None h Hbad).
Defined.

(** C10, as stated, fails: a caller's list of indices that is not sorted is
    sorted in place by the call. *)
Lemma arguments_unchanged_counterexample :
  ¬ arguments_unchanged None (call_example (PyList [1; -2; 0]) None).
Proof.
  unfold arguments_unchanged. intros (_ & _ & Hl).
  vm_compute in Hl. discriminate Hl.
Qed.

(** C10, amended: the call changes neither [events] nor [grid_data].  It
    leaves [relative_grid_indices] unchanged as long as a table fails its
    assertion; past these assertions an immutable sequence is unchanged, a
    list is left sorted in ascending order, and a one-shot iterator is left
    exhausted. *)
Theorem build_local_timeseries_frame freq h :
  let h' := (build_local_timeseries freq h).2 in
  h_events h' = h_events h
  ∧ h_grid_data h' = h_grid_data h
  ∧ h_relative_grid_indices h' =
    if tables_valid h then indices_after_call (h_relative_grid_indices h)
    else h_relative_grid_indices h.
Proof.
  simpl. destruct (tables_valid h) eqn:Hv.
  2:{ by rewrite build_local_timeseries_rejects by by left. }
  destruct (decide (items_of (h_relative_grid_indices h) = [])) as [Hl|Hl].
  { rewrite build_local_timeseries_rejects by by right. simpl.
    split; [done|]. split; [done|].
    by destruct (h_relative_grid_indices h); simpl in *; subst. }
  apply tables_valid_true in Hv as (ev & gd & He & Hg & Hse & Hsg).
  rewrite (build_local_timeseries_accepts freq h ev gd) by done.
  pose proof (for_idx_frame (index ev) gd freq
    (merge_sort Z.le (items_of (h_relative_grid_indices h))) []
    (set_relative_grid_indices
       (indices_after_call (h_relative_grid_indices h)) h)) as Hf.
  simpl in Hf. destruct Hf as (Hf1 & Hf2 & Hf3 & _).
  destruct (for_idx _ _ _ _ _ _) as [[rd|e] h']; simpl in *; [|done].
  destruct (concat rd) as [df|e]; [|done].
  by destruct (bool_decide _).
Qed.

(** C5: two collections of indices that are permutations of each other give
    the same result, be it a table or an exception. *)
Theorem build_local_timeseries_permutation freq h indices1 indices2 :
  items_of indices1 ≡ₚ items_of indices2 →
  (build_local_timeseries freq (set_relative_grid_indices indices1 h)).1
  = (build_local_timeseries freq (set_relative_grid_indices indices2 h)).1.
Proof.
  intros Hp.
  destruct (tables_valid h) eqn:Hv.
  2:{ by rewrite !build_local_timeseries_rejects by by left. }
  destruct (decide (items_of indices1 = [])) as [Hl|Hl].
  { assert (items_of indices2 = []) as Hl2.
    { rewrite Hl in Hp. by apply Permutation_nil in Hp. }
    by rewrite !build_local_timeseries_rejects by by right. }
  assert (items_of indices2 ≠ []) as Hl2.
  { intros Hnil. rewrite Hnil in Hp. by apply Permutation_nil_r in Hp. }
  apply tables_valid_true in Hv as (ev & gd & He & Hg & Hse & Hsg).
  rewrite !(build_local_timeseries_result freq _ ev gd) by done.
  simpl. rewrite !for_idx_set_indices.
  rewrite (merge_sort_Permutation_eq _ _ Hp).
  by destruct (for_idx _ _ _ _ _ h) as [[rd|e] h'].
Qed.

Lemma build_local_timeseries_permutation_witness :
  let h := call_example (PyTuple []) None in
  items_of (PyList [1; -2; 0]) ≡ₚ items_of (PyList [-2; 0; 1])
  ∧ (build_local_timeseries None
       (set_relative_grid_indices (PyList [1; -2; 0]) h)).1
    = (build_local_timeseries None
         (set_relative_grid_indices (PyList [-2; 0; 1]) h)).1.
Proof.
  intros h.
  assert (items_of (PyList [1; -2; 0]) ≡ₚ items_of (PyList [-2; 0; 1])) as Hp.
  { simpl. etrans; [apply perm_swap|]. apply perm_skip, perm_swap. }
  split; [exact Hp|].
  exact (build_local_timeseries_permutation None h _ _ Hp).
Defined.

(** C3: on valid tables, when some index of the collection has an empty
    intersection, the call raises and returns no table.  Without an [info]
    dict, and when no shift leaves the 64-bit range, the exception is the
    assertion error of [_shift_and_select]. *)
Theorem build_local_timeseries_empty_intersection freq h events grid_data k :
  h_events h = PyDataFrame events →
  h_grid_data h = PyDataFrame grid_data →
  Sorted Z.lt (index events) →
  Sorted Z.lt (index grid_data) →
  k ∈ items_of (h_relative_grid_indices h) →
  intersection (index events) (index (shift grid_data (- k) freq)) = [] →
  is_Raise (build_local_timeseries freq h).1
  ∧ (h_info h = None →
     Forall (λ k', shift_in_range grid_data (- k') freq)
            (items_of (h_relative_grid_indices h)) →
     (build_local_timeseries freq h).1 = Raise AssertionError).
Proof.
  intros He Hg Hse Hsg Hk Hempty.
  assert (items_of (h_relative_grid_indices h) ≠ []) as Hne.
  { intros Hnil. rewrite Hnil in Hk. by apply elem_of_nil in Hk. }
  rewrite (build_local_timeseries_result freq h events grid_data) by done.
  set (sorted := merge_sort Z.le (items_of (h_relative_grid_indices h))).
  assert (k ∈ sorted) as Hks.
  { unfold sorted. by rewrite merge_sort_Permutation. }
  destruct (h_info h) as [i|] eqn:Hi.
  - split; [|done]. destruct sorted as [|k' l]; [by apply elem_of_nil in Hks|].
    destruct (for_idx_with_info (index events) grid_data freq k' l [] h)
      as (e & h' & -> & _); [by rewrite Hi|].
    by exists e.
  - rewrite for_idx_no_info_result by done.
    destruct (first_failure (index events) grid_data freq sorted)
      as [e|] eqn:Hf.
    + split; [by exists e|]. intros _ Hall. f_equal.
      apply (first_failure_in_range (index events) grid_data freq sorted);
        [|done].
      unfold sorted. by rewrite merge_sort_Permutation.
    + apply first_failure_None in Hf. eapply Forall_forall in Hf; [|exact Hks].
      apply index_failure_None in Hf as [_ Hf]. by destruct Hf.
Qed.

Lemma build_local_timeseries_empty_intersection_witness :
  let h := call_example (PyList [0; 7]) None in
  is_Raise (build_local_timeseries (Some 1) h).1
  ∧ (h_info h = None →
     Forall (λ k', shift_in_range grid_example (- k') (Some 1))
            (items_of (h_relative_grid_indices h)) →
     (build_local_timeseries (Some 1) h).1 = Raise AssertionError).
Proof.
  intros h.
  apply (build_local_timeseries_empty_intersection
           (Some 1) h events_example grid_example 7).
  - reflexivity.
  - reflexivity.
  - apply (bool_decide_eq_true_1 _). vm_compute. reflexivity.
  - apply (bool_decide_eq_true_1 _). vm_compute. reflexivity.
  - simpl. right. left.
  - vm_compute. reflexivity.
Defined.

(** C4: the composite (index, timestamp) labels of a returned table are in
    non-decreasing order, the relative grid indices ascending as the outer
    key. *)
Theorem build_local_timeseries_monotonic freq h df h' :
  build_local_timeseries freq h = (Ok df, h') →
  Sorted key_le (index df) ∧ Sorted Z.le (index df).*1.
Proof.
  intros Hrun.
  destruct (tables_valid h) eqn:Hv.
  2:{ by rewrite build_local_timeseries_rejects in Hrun by by left. }
  destruct (decide (items_of (h_relative_grid_indices h) = [])) as [Hl|Hl].
  { by rewrite build_local_timeseries_rejects in Hrun by by right. }
  apply tables_valid_true in Hv as (ev & gd & He & Hg & Hse & Hsg).
  rewrite (build_local_timeseries_accepts freq h ev gd) in Hrun by done.
  destruct (for_idx _ _ _ _ _ _) as [[rd|e] h1]; [|done].
  destruct (concat rd) as [df'|e]; [|done].
  destruct (bool_decide (Sorted key_lt (index df'))) eqn:Hs; [|done].
  simplify_eq. apply bool_decide_eq_true in Hs. split.
  - rewrite <- (list_fmap_id (index df)).
    apply (Sorted_fmap id key_lt key_le); [|done].
    intros a b. apply key_lt_le.
  - apply (Sorted_fmap fst key_lt Z.le); [|done].
    intros a b. unfold key_lt. lia.
Qed.

Lemma build_local_timeseries_monotonic_witness :
  let h := call_example (PyList [1; -1; 0]) None in
  let df := mkFrame ["response"%string]
              [((-1, 2), [1%float]); ((-1, 4), [3%float]);
               ((0, 2), [2%float]); ((0, 4), [4%float]);
               ((1, 2), [3%float])] in
  build_local_timeseries (Some 1) h
  = (Ok df, add_log (Warning (1 # 2) (-1))
              (set_relative_grid_indices (PyList [-1; 0; 1]) h))
  ∧ Sorted key_le (index df) ∧ Sorted Z.le (index df).*1.
Proof.
  intros h df.
  assert (build_local_timeseries (Some 1) h
          = (Ok df, add_log (Warning (1 # 2) (-1))
                      (set_relative_grid_indices (PyList [-1; 0; 1]) h)))
    as Hrun by (vm_compute; reflexivity).
  split; [exact Hrun|].
  exact (build_local_timeseries_monotonic (Some 1) h df _ Hrun).
Defined.

(** A call with an [info] dict on otherwise valid inputs raises on the
    first index, and the caller's dict is not written. *)
Lemma build_local_timeseries_with_info freq h events grid_data info :
  h_events h = PyDataFrame events →
  h_grid_data h = PyDataFrame grid_data →
  Sorted Z.lt (index events) →
  Sorted Z.lt (index grid_data) →
  items_of (h_relative_grid_indices h) ≠ [] →
  h_info h = Some info →
  ∃ e h', build_local_timeseries freq h = (Raise e, h')
          ∧ (e = AssertionError ∨ e = NameError "mode" ∨ e = OverflowError)
          ∧ h_info h' = Some info.
Proof.
  intros He Hg Hse Hsg Hne Hi.
  rewrite (build_local_timeseries_accepts freq h events grid_data) by done.
  destruct (merge_sort Z.le (items_of (h_relative_grid_indices h)))
    as [|k l] eqn:Hsort.
  { destruct Hne. apply Permutation_nil.
    by rewrite <- Hsort, merge_sort_Permutation. }
  destruct (for_idx_with_info (index events) grid_data freq k l []
              (set_relative_grid_indices
                 (indices_after_call (h_relative_grid_indices h)) h))
    as (e & h' & -> & Hor & Hinfo & _); [by simpl; rewrite Hi|].
  exists e, h'. by rewrite Hinfo.
Qed.

(** C2 (the code departs from it): with a diagnostics container supplied,
    here an empty dict with the single index 0 on the example tables, the
    call does not complete; it raises [NameError] for the name [mode] and
    the container is as empty as before. *)
Theorem build_local_timeseries_diagnostics_raises :
  build_local_timeseries None (call_example (PyTuple [0]) (Some ∅))
  = (Raise (NameError "mode"), call_example (PyTuple [0]) (Some ∅)).
Proof. vm_compute. reflexivity. Qed.

(** What the failing statement is preceded by: the entry
    [indices_with_no_data] is computed as [intersection.difference(idx)],
    the empty index, where the events without data are
    [idx.difference(intersection)]; at index 1 of the example the event at
    timestamp 4 has no data. *)
Lemma indices_with_no_data_example :
  let idx := index events_example in
  let intersection := hits idx grid_example (Some 1) 1 in
  difference intersection idx = [] ∧ difference idx intersection = [4].
Proof. vm_compute. done. Qed.

(** C6 (the code departs from it when a diagnostics container is
    supplied): at index 1 with a frequency of one time unit one of the two
    example events is covered; the warning is logged, and the call then
    fails on that index with [NameError]. *)
Theorem build_local_timeseries_low_coverage_with_info_raises :
  build_local_timeseries (Some 1) (call_example (PyTuple [1]) (Some ∅))
  = (Raise (NameError "mode"),
     add_log (Warning (1 # 2) (-1)) (call_example (PyTuple [1]) (Some ∅))).
Proof. vm_compute. reflexivity. Qed.

(** ** Low coverage without an [info] dict *)

Lemma maybe_warn_log_mono pct p h r :
  r ∈ h_log h → r ∈ h_log (maybe_warn pct p h).
Proof.
  unfold maybe_warn. destruct (Qltb _ _); [|done].
  simpl. intros ?. apply elem_of_app. by left.
Qed.

Lemma warnings_log_mono eidx gd freq l h r :
  r ∈ h_log h →
  r ∈ h_log (foldl (λ h k, maybe_warn (coverage eidx gd freq k) (- k) h) h l).
Proof.
  induction l as [|k l IH] in h |- *; [done|].
  intros Hr. simpl. by apply IH, maybe_warn_log_mono.
Qed.

Lemma warnings_logged eidx gd freq l h k :
  k ∈ l →
  Qltb (coverage eidx gd freq k) (9 # 10) = true →
  Warning (coverage eidx gd freq k) (- k)
  ∈ h_log (foldl (λ h k, maybe_warn (coverage eidx gd freq k) (- k) h) h l).
Proof.
  intros Hk Hlow. induction l as [|k' l IH] in h, Hk |- *.
  { by apply elem_of_nil in Hk. }
  simpl. apply elem_of_cons in Hk as [<-|Hk]; [|by apply IH].
  apply warnings_log_mono. unfold maybe_warn. rewrite Hlow. simpl.
  apply elem_of_app. right. left.
Qed.

Lemma Qltb_lt (x y : Q) : Qltb x y = true ↔ (x < y)%Q.
Proof.
  unfold Qltb. rewrite negb_true_iff, <- not_true_iff_false, Qle_bool_iff.
  split; [apply Qnot_le_lt | apply Qlt_not_le].
Qed.

Lemma gather_gathered eidx gd freq l rd :
  gathered eidx gd freq rd → gathered eidx gd freq (gather eidx gd freq rd l).
Proof.
  induction l as [|k l IH] in rd |- *; [done|].
  intros Hg. simpl. apply IH. by apply dict_set_Forall.
Qed.

Lemma gather_lookup eidx gd freq l k :
  k ∈ l → (k, data_at eidx gd freq k) ∈ gather eidx gd freq [] l.
Proof.
  intros Hk.
  assert (k ∈ (gather eidx gd freq [] l).*1) as Hin.
  { apply gather_keys. by right. }
  apply list_elem_of_fmap in Hin as [[k' f] [-> Hin]].
  pose proof (gather_gathered eidx gd freq l [] (Forall_nil_2 _)) as Hg.
  eapply Forall_forall in Hg; [|done]. simpl in Hg. by subst f.
Qed.

Lemma rows_concat_eq (d : list (Z * DataFrame)) (df : MultiFrame) :
  concat d = Ok df →
  rows df = d ≫= λ kf, prod_map (pair kf.1) id <$> rows kf.2.
Proof. unfold concat. destruct d as [|[k f] d]; [done|]. by intros [= <-]. Qed.

Lemma rows_concat (d : list (Z * DataFrame)) (df : MultiFrame) k f t r :
  concat d = Ok df → (k, f) ∈ d → (t, r) ∈ rows f → ((k, t), r) ∈ rows df.
Proof.
  intros ->%rows_concat_eq Hin Hr. apply list_elem_of_bind.
  exists (k, f). split; [|done].
  apply list_elem_of_fmap. by exists (t, r).
Qed.

Lemma rows_data_at eidx gd freq k t :
  t ∈ hits eidx gd freq k →
  ∃ r, row_at (rows (shift gd (- k) freq)) t = Some r
       ∧ (t, r) ∈ rows (data_at eidx gd freq k).
Proof.
  intros Ht.
  destruct (row_at_is_Some (rows (shift gd (- k) freq)) t) as [r Hr].
  { by apply elem_of_intersection in Ht as [_ Ht]. }
  exists r. split; [done|].
  unfold data_at, selected. simpl. apply list_elem_of_fmap.
  exists t. by rewrite Hr.
Qed.

Lemma index_failure_None_Forall eidx gd freq l :
  Forall (λ k, shift_in_range gd (- k) freq) l →
  Forall (λ k, hits eidx gd freq k ≠ []) l →
  Forall (λ k, index_failure eidx gd freq k = None) l.
Proof.
  rewrite !Forall_forall. intros Hin Hall k Hk.
  rewrite index_failure_in_range by auto. rewrite decide_False; auto.
Qed.

(** Without an [info] dict, an index that covers some but fewer than 90% of
    the events does not make the call fail: when every index has its shift
    in range and covers some event the call returns, the warning for the
    index is in the log, and the shifted rows at the covered event
    timestamps are in the result under that index. *)
Lemma build_local_timeseries_low_coverage freq h events grid_data k :
  h_events h = PyDataFrame events →
  h_grid_data h = PyDataFrame grid_data →
  Sorted Z.lt (index events) →
  Sorted Z.lt (index grid_data) →
  h_info h = None →
  Forall (λ k, shift_in_range grid_data (- k) freq)
         (items_of (h_relative_grid_indices h)) →
  Forall (λ k, hits (index events) grid_data freq k ≠ [])
         (items_of (h_relative_grid_indices h)) →
  k ∈ items_of (h_relative_grid_indices h) →
  (coverage (index events) grid_data freq k < 9 # 10)%Q →
  ∃ df h',
    build_local_timeseries freq h = (Ok df, h')
    ∧ Warning (coverage (index events) grid_data freq k) (- k) ∈ h_log h'
    ∧ ∀ t, t ∈ hits (index events) grid_data freq k →
           ∃ r, row_at (rows (shift grid_data (- k) freq)) t = Some r
                ∧ ((k, t), r) ∈ rows df.
Proof.
  intros He Hg Hse Hsg Hi Hrng Hall Hk Hlow.
  assert (items_of (h_relative_grid_indices h) ≠ []) as Hne.
  { intros Hnil. rewrite Hnil in Hk. by apply elem_of_nil in Hk. }
  destruct (build_local_timeseries_returns freq h events grid_data)
    as (df & Hc & Hrun); [done..|by apply index_failure_None_Forall|].
  assert (k ∈ merge_sort Z.le (items_of (h_relative_grid_indices h))) as Hks.
  { by rewrite merge_sort_Permutation. }
  eexists df, _. split; [exact Hrun|]. split.
  - apply warnings_logged; [done|]. by apply Qltb_lt.
  - intros t Ht.
    destruct (rows_data_at (index events) grid_data freq k t Ht) as (r & Hr & Hin).
    exists r. split; [done|].
    eapply rows_concat; [exact Hc| |exact Hin].
    by apply gather_lookup.
Qed.

(** ** [reindex_event_features] *)

Lemma Sorted_lt_NoDup (l : list Z) : Sorted Z.lt l → NoDup l.
Proof.
  intros Hs. apply Sorted_StronglySorted in Hs; [|apply _].
  induction Hs as [|x l _ IH Hx]; constructor; [|done].
  intros Hin. eapply Forall_forall in Hx; [|done]. lia.
Qed.

Lemma Sorted_lt_le (l : list Z) : Sorted Z.lt l → Sorted Z.le l.
Proof.
  intros Hs. rewrite <- (list_fmap_id l).
  apply (Sorted_fmap id Z.lt Z.le); [|done]. intros x y. simpl. lia.
Qed.

Lemma row_at_imap (g : nat → Z → list float) (target : list Z) (t : Z) :
  t ∈ target →
  ∃ j, target !! j = Some t
       ∧ row_at (imap (λ j t, (t, g j t)) target) t = Some (g j t).
Proof.
  induction target as [|t' target IH] in g |- *.
  { by intros ?%elem_of_nil. }
  intros Hin. rewrite imap_cons. simpl. case_decide as Ht.
  - subst t'. by exists 0%nat.
  - apply elem_of_cons in Hin as [?|Hin]; [congruence|].
    destruct (IH (g ∘ S) Hin) as (j & Hj & Hr). by exists (S j).
Qed.

Lemma index_reindexed df kwargs inc limit target :
  index (reindexed df kwargs inc limit target) = target.
Proof.
  unfold index, reindexed. simpl. rewrite fmap_imap.
  rewrite (imap_ext _ (const id)) by done.
  by rewrite imap_const, list_fmap_id.
Qed.

(** On a strictly increasing table index and target, with accepted options,
    [reindex] returns; the result is the table itself when the target is
    its index and the reindexed table otherwise. *)
Lemma reindex_returns df target kwargs :
  Sorted Z.lt (index df) → Sorted Z.lt target → kwargs_accepted kwargs →
  reindex df target kwargs =
  Ok (if decide (index df = target) then df
      else reindexed df kwargs true (kw_limit kwargs) target).
Proof.
  intros Hs Ht Hk. unfold reindex. case_decide; [done|].
  rewrite (bool_decide_true (NoDup _)) by by apply Sorted_lt_NoDup.
  cbn [negb]. unfold kwargs_accepted in Hk.
  destruct (kw_method kwargs) as [m|] eqn:Hm.
  - case_decide as Hnil; [by subst target|].
    rewrite !bool_decide_true by auto using Sorted_lt_le. cbn [andb].
    destruct (kw_limit kwargs) as [[|lim]|]; [|done..]. destruct Hk; lia.
  - destruct (kw_limit kwargs); [|done]. by destruct Hk as [[? ?] _].
Qed.

Lemma filter_ext_in {A} (P Q : A → Prop)
    `{!∀ x, Decision (P x), !∀ x, Decision (Q x)} (l : list A) :
  (∀ x, x ∈ l → P x ↔ Q x) → filter P l = filter Q l.
Proof.
  induction l as [|x l IH]; [done|]. intros Hext.
  assert (filter P l = filter Q l) as Hl.
  { apply IH. intros y Hy. apply Hext. by right. }
  rewrite !filter_cons, Hl.
  destruct (decide (P x)) as [HP|HP], (decide (Q x)) as [HQ|HQ]; try done.
  - destruct HQ. by apply Hext; [left|].
  - destruct HP. by apply Hext; [left|].
Qed.

Lemma StronglySorted_lt_split (target : list Z) j t :
  StronglySorted Z.lt target → target !! j = Some t →
  Forall (λ t', t' < t) (take j target)
  ∧ Forall (λ t', t < t') (drop (S j) target).
Proof.
  intros Hs. revert j.
  induction Hs as [|x l Hl IH Hx]; intros [|j] Hj; simplify_eq/=.
  - split; [constructor|done].
  - destruct (IH j Hj) as [H1 H2]. split; [|done]. constructor; [|done].
    eapply Forall_forall in Hx; [exact Hx|by eapply list_elem_of_lookup_2].
Qed.

(** In a strictly increasing target, the labels between [s] and the label
    at position [j] are the labels beyond [s] among the first [j]. *)
Lemma filter_between_take (target : list Z) j s t :
  StronglySorted Z.lt target → target !! j = Some t →
  filter (λ t', s < t' < t) target = filter (λ t', s < t') (take j target).
Proof.
  intros Hs Hj. destruct (StronglySorted_lt_split target j t Hs Hj) as [H1 H2].
  rewrite <- (take_drop_middle target j t Hj) at 1.
  rewrite filter_app, filter_cons_False by lia.
  rewrite (filter_none _ (drop (S j) target)).
  2:{ eapply Forall_impl; [exact H2|]. simpl. lia. }
  rewrite app_nil_r. apply filter_ext_in. intros t' Ht'.
  eapply Forall_forall in H1; [|done]. simpl in H1. lia.
Qed.

Lemma filter_between_drop (target : list Z) j s t :
  StronglySorted Z.lt target → target !! j = Some t →
  filter (λ t', t < t' < s) target = filter (λ t', t' < s) (drop (S j) target).
Proof.
  intros Hs Hj. destruct (StronglySorted_lt_split target j t Hs Hj) as [H1 H2].
  rewrite <- (take_drop_middle target j t Hj) at 1.
  rewrite filter_app, filter_cons_False by lia.
  rewrite (filter_none _ (take j target)).
  2:{ eapply Forall_impl; [exact H1|]. simpl. lia. }
  rewrite app_nil_l. apply filter_ext_in. intros t' Ht'.
  eapply Forall_forall in H2; [|done]. simpl in H2. lia.
Qed.

Lemma row_at_None_inv {K} `{EqDecision K} (rs : list (K * list float)) (t : K) :
  row_at rs t = None → t ∉ rs.*1.
Proof.
  intros Hr Hin. apply row_at_is_Some in Hin as [r Hin]. congruence.
Qed.

(** C9: on an event table and a grid table (both with strictly increasing
    index) and with options that [reindex] accepts, [reindex_event_features]
    returns a table with the index of the grid and the columns of the event
    table, and modifies no object.  At a timestamp of the event table the
    result has the row of the event table.  At any other grid timestamp
    [t] it has the fill row (the fill value, NaN by default, in every
    column) when no method is given; with [pad] the row of the last event
    before [t], with [backfill] the row of the first event after [t], but
    the fill row when there is no such event or when a limit is given and
    the number of grid timestamps strictly between that event and [t] has
    reached it. *)
Theorem reindex_event_features_spec events grid_data kwargs h :
  Sorted Z.lt (index events) →
  Sorted Z.lt (index grid_data) →
  kwargs_accepted kwargs →
  let fill := replicate (length (columns events))
                (default PrimFloat.nan (kw_fill_value kwargs)) in
  let limited (between : list Z) (row : list float) :=
    match kw_limit kwargs with
    | Some limit => if decide (length between < limit)%nat then row else fill
    | None => row
    end in
  ∃ reindexed,
    reindex_event_features events grid_data kwargs h = (Ok reindexed, h)
    ∧ index reindexed = index grid_data
    ∧ columns reindexed = columns events
    ∧ ∀ t, t ∈ index grid_data →
        row_at (rows reindexed) t =
        Some match row_at (rows events) t, kw_method kwargs with
             | Some row, _ => row
             | None, None => fill
             | None, Some pad =>
                 match last (filter (λ p, p.1 < t) (rows events)) with
                 | Some (s, row) =>
                     limited (filter (λ t', s < t' < t) (index grid_data)) row
                 | None => fill
                 end
             | None, Some backfill =>
                 match head (filter (λ p, t < p.1) (rows events)) with
                 | Some (s, row) =>
                     limited (filter (λ t', t < t' < s) (index grid_data)) row
                 | None => fill
                 end
             end.
Proof.
  intros Hse Hsg Hk fill limited. eexists. split.
  { unfold reindex_event_features. by rewrite bind_lift, reindex_returns. }
  case_decide as Heq.
  { do 2 (split; [done|]). intros t Ht. rewrite <- Heq in Ht.
    destruct (row_at_is_Some (rows events) t Ht) as [row Hrow].
    by rewrite Hrow. }
  split; [apply index_reindexed|]. split; [done|].
  intros t Ht. unfold reindexed. cbn [rows].
  destruct (row_at_imap
              (reindex_row events kwargs true (kw_limit kwargs)
                 (index grid_data)) (index grid_data) t Ht)
    as (j & Hj & ->).
  f_equal. unfold reindex_row.
  destruct (row_at (rows events) t) as [row|] eqn:Hrow; [done|].
  apply row_at_None_inv in Hrow.
  assert (StronglySorted Z.lt (index grid_data)) as Hss
    by by apply Sorted_StronglySorted; [apply _|].
  destruct (kw_method kwargs) as [[|]|]; [| |done].
  - unfold fill_source.
    rewrite (filter_ext_in (λ p, before true p.1 t) (λ p : Z * list float, p.1 < t)).
    2:{ intros [s row] Hin. simpl.
        assert (s ≠ t); [|lia]. intros ->. apply Hrow.
        apply list_elem_of_fmap. by exists (t, row). }
    destruct (last _) as [[s row]|]; [|done].
    unfold within_limit, limited. destruct (kw_limit kwargs) as [lim|]; [|done].
    rewrite (filter_between_take _ j) by done.
    by case_bool_decide; [rewrite decide_True|rewrite decide_False].
  - unfold fill_source.
    rewrite (filter_ext_in (λ p, before true t p.1) (λ p : Z * list float, t < p.1)).
    2:{ intros [s row] Hin. simpl.
        assert (s ≠ t); [|lia]. intros ->. apply Hrow.
        apply list_elem_of_fmap. by exists (t, row). }
    destruct (head _) as [[s row]|]; [|done].
    unfold within_limit, limited. destruct (kw_limit kwargs) as [lim|]; [|done].
    rewrite (filter_between_drop _ j) by done.
    by case_bool_decide; [rewrite decide_True|rewrite decide_False].
Qed.

Lemma reindex_event_features_spec_witness :
  let h := call_example (PyTuple [0]) None in
  let kwargs := mk_kwargs (Some pad) (Some 0%float) (Some 1%nat) in
  let fill := replicate (length (columns event_example))
                (default PrimFloat.nan (kw_fill_value kwargs)) in
  let limited (between : list Z) (row : list float) :=
    match kw_limit kwargs with
    | Some limit => if decide (length between < limit)%nat then row else fill
    | None => row
    end in
  reindex_event_features event_example grid_example kwargs h
  = (Ok (mkFrame ["indicator"%string]
           [(1, [0%float]); (2, [1%float]); (3, [1%float]); (4, [0%float])]),
     h)
  ∧ ∃ reindexed,
    reindex_event_features event_example grid_example kwargs h
    = (Ok reindexed, h)
    ∧ index reindexed = index grid_example
    ∧ columns reindexed = columns event_example
    ∧ ∀ t, t ∈ index grid_example →
        row_at (rows reindexed) t =
        Some match row_at (rows event_example) t, kw_method kwargs with
             | Some row, _ => row
             | None, None => fill
             | None, Some pad =>
                 match last (filter (λ p, p.1 < t) (rows event_example)) with
                 | Some (s, row) =>
                     limited (filter (λ t', s < t' < t) (index grid_example)) row
                 | None => fill
                 end
             | None, Some backfill =>
                 match head (filter (λ p, t < p.1) (rows event_example)) with
                 | Some (s, row) =>
                     limited (filter (λ t', t < t' < s) (index grid_example)) row
                 | None => fill
                 end
             end.
Proof.
  intros h kwargs fill limited. split; [vm_compute; reflexivity|].
  apply (reindex_event_features_spec event_example grid_example kwargs h).
  - apply (bool_decide_eq_true_1 _). vm_compute. reflexivity.
  - apply (bool_decide_eq_true_1 _). vm_compute. reflexivity.
  - apply (bool_decide_eq_true_1 _). vm_compute. reflexivity.
Defined.

(** ** [regression] *)

(** numpy has no attribute [mat_mul]. *)
Lemma np_getattr_mat_mul `{Numpy} :
  np_getattr "mat_mul" = Raise (AttributeError "numpy" "mat_mul").
Proof. reflexivity. Qed.

(** Every call of [regression] raises: whatever the numerical routines
    give, the last statement looks up [np.mat_mul]. *)
Lemma not_Ok_is_Raise {A} (r : res A) : (∀ a, r ≠ Ok a) → is_Raise r.
Proof. destruct r as [a|e]; [by intros Hn; destruct (Hn a)|by exists e]. Qed.

Lemma regression_raises `{Numpy} x y info :
  is_Raise (regression x y info).1.
Proof.
  apply not_Ok_is_Raise. intros fitted. unfold regression.
  repeat (rewrite bind_lift;
          match goal with
          | |- context [match ?r with Ok _ => _ | Raise _ => _ end] =>
              destruct r; [|done]
          end).
  rewrite bind_run. unfold get_heap at 1.
  destruct info as [d|]; rewrite bind_run.
  - rewrite bind_lift. destruct (dassert _); [|done].
    unfold modify at 1. by rewrite bind_lift, np_getattr_mat_mul.
  - unfold mret at 1, ST_ret at 1. by rewrite bind_lift, np_getattr_mat_mul.
Qed.

(** C1 (the code departs from it): on the example design matrix and
    response, which satisfy the preconditions, [regression] returns no
    fitted values; it raises [AttributeError] for [np.mat_mul]. *)
Theorem regression_fitted_values_raises :
  @regression Numpy_single x_example y_example None
  = (Raise (AttributeError "numpy" "mat_mul"), None).
Proof. vm_compute. reflexivity. Qed.





(** * Further properties *)

(** ** The result in closed form *)

Lemma gathered_eq eidx gd freq rd :
  gathered eidx gd freq rd →
  rd = (λ k, (k, data_at eidx gd freq k)) <$> rd.*1.
Proof.
  induction 1 as [|[k f] rd Hk _ IH]; [done|].
  simpl in Hk. subst f. rewrite !fmap_cons. cbn [fst]. by f_equal.
Qed.

Lemma StronglySorted_lt_NoDup (l : list Z) : StronglySorted Z.lt l → NoDup l.
Proof.
  induction 1 as [|x l _ IH Hx]; constructor; [|done].
  intros Hin. eapply Forall_forall in Hx; [|done]. lia.
Qed.

Lemma StronglySorted_lt_unique (l1 l2 : list Z) :
  StronglySorted Z.lt l1 → StronglySorted Z.lt l2 →
  (∀ k, k ∈ l1 ↔ k ∈ l2) → l1 = l2.
Proof.
  intros H1 H2 Hel. apply (StronglySorted_unique_strong Z.lt); [|done..|].
  - intros x1 x2 _ _ ? ?. lia.
  - apply NoDup_Permutation; auto using StronglySorted_lt_NoDup.
Qed.

Lemma distinct_sorted_sorted l : StronglySorted Z.lt (distinct_sorted l).
Proof.
  unfold distinct_sorted.
  assert (StronglySorted Z.le (merge_sort Z.le (remove_dups l))) as Hs.
  { apply StronglySorted_merge_sort; apply _. }
  assert (NoDup (merge_sort Z.le (remove_dups l))) as Hn.
  { rewrite merge_sort_Permutation. apply NoDup_remove_dups. }
  induction Hs as [|x l' _ IH Hx]; [constructor|].
  apply NoDup_cons in Hn as [Hx' Hn]. constructor; [by apply IH|].
  apply Forall_forall. intros y Hy. eapply Forall_forall in Hx; [|done].
  assert (x ≠ y) by congruence. lia.
Qed.

Lemma elem_of_distinct_sorted l k : k ∈ distinct_sorted l ↔ k ∈ l.
Proof.
  unfold distinct_sorted.
  by rewrite merge_sort_Permutation, elem_of_remove_dups.
Qed.

(** After the loop the dict holds, for each distinct index in ascending
    order, the table selected at that index. *)
Lemma gather_distinct_sorted eidx gd freq l :
  gather eidx gd freq [] (merge_sort Z.le l)
  = (λ k, (k, data_at eidx gd freq k)) <$> distinct_sorted l.
Proof.
  destruct (gather_sorted eidx gd freq (merge_sort Z.le l) []) as [Hs Hg].
  - apply StronglySorted_merge_sort; apply _.
  - constructor.
  - intros k k' Hk. inversion Hk.
  - constructor.
  - rewrite (gathered_eq _ _ _ _ Hg). f_equal.
    apply StronglySorted_lt_unique; [done|apply distinct_sorted_sorted|].
    intros k. rewrite gather_keys, elem_of_distinct_sorted.
    rewrite merge_sort_Permutation, elem_of_nil. tauto.
Qed.

Lemma columns_data_at eidx gd freq k :
  columns (data_at eidx gd freq k) = columns gd.
Proof. unfold data_at, selected, shift. by destruct freq. Qed.

Lemma concat_gather eidx gd freq l :
  l ≠ [] →
  concat (gather eidx gd freq [] (merge_sort Z.le l))
  = Ok (local_timeseries eidx gd freq l).
Proof.
  intros Hne. rewrite gather_distinct_sorted. unfold local_timeseries.
  destruct (distinct_sorted l) as [|k ks] eqn:Hd.
  { destruct l as [|k l]; [done|].
    assert (k ∈ distinct_sorted (k :: l)) as Hk.
    { apply elem_of_distinct_sorted. left. }
    rewrite Hd in Hk. by apply elem_of_nil in Hk. }
  assert (∀ ks' : list Z,
    ((λ k, (k, data_at eidx gd freq k)) <$> ks')
    ≫= (λ kf : Z * DataFrame, prod_map (pair kf.1) id <$> rows kf.2)
    = ks' ≫= λ k, prod_map (pair k) id <$> rows (data_at eidx gd freq k))
    as Hbind.
  { intros ks'. induction ks' as [|k' ks' IH]; [done|].
    rewrite fmap_cons, !bind_cons. cbn [fst snd]. by rewrite IH. }
  rewrite <- Hbind. unfold concat. rewrite fmap_cons. cbn [snd fst].
  by rewrite columns_data_at.
Qed.

Lemma foldl_maybe_warn eidx gd freq l h :
  foldl (λ h k, maybe_warn (coverage eidx gd freq k) (- k) h) h l
  = mkHeap (h_events h) (h_grid_data h) (h_relative_grid_indices h)
      (h_info h) (h_log h ++ warnings eidx gd freq l).
Proof.
  unfold warnings. induction l as [|k l IH] in h |- *.
  { simpl. by rewrite app_nil_r, heap_eta. }
  simpl. rewrite IH. rewrite filter_cons. unfold maybe_warn.
  destruct (decide (low_coverage eidx gd freq k)) as [Hq|Hq].
  - rewrite Hq. rewrite fmap_cons. simpl. by rewrite <- app_assoc.
  - unfold low_coverage in Hq. apply not_true_is_false in Hq. by rewrite Hq.
Qed.

Lemma build_local_timeseries_table freq h events grid_data :
  h_events h = PyDataFrame events →
  h_grid_data h = PyDataFrame grid_data →
  Sorted Z.lt (index events) →
  Sorted Z.lt (index grid_data) →
  h_info h = None →
  items_of (h_relative_grid_indices h) ≠ [] →
  Forall (λ k, index_failure (index events) grid_data freq k = None)
         (items_of (h_relative_grid_indices h)) →
  (build_local_timeseries freq h).1
  = Ok (local_timeseries (index events) grid_data freq
          (items_of (h_relative_grid_indices h))).
Proof.
  intros He Hg Hse Hsg Hi Hne Hall.
  destruct (build_local_timeseries_returns freq h events grid_data)
    as (df & Hc & ->); [done..|].
  rewrite concat_gather in Hc by done. by injection Hc as <-.
Qed.

Lemma build_local_timeseries_Ok_inv freq h df h' :
  build_local_timeseries freq h = (Ok df, h') → call_returns freq h.
Proof.
  intros Hdf.
  destruct (tables_valid h) eqn:Hv.
  2:{ by rewrite build_local_timeseries_rejects in Hdf by by left. }
  destruct (decide (items_of (h_relative_grid_indices h) = [])) as [Hl|Hl].
  { by rewrite build_local_timeseries_rejects in Hdf by by right. }
  apply tables_valid_true in Hv as (ev & gd & He & Hg & Hse & Hsg).
  exists ev, gd. do 4 (split; [done|]).
  destruct (h_info h) as [i|] eqn:Hi.
  { destruct (build_local_timeseries_with_info freq h ev gd i)
      as (e & h1 & Hrun & _); [done..|].
    by rewrite Hrun in Hdf. }
  do 2 (split; [done|]).
  apply (f_equal fst) in Hdf. simpl in Hdf.
  rewrite (build_local_timeseries_result freq h ev gd) in Hdf by done.
  rewrite for_idx_no_info_result in Hdf by done.
  destruct (first_failure (index ev) gd freq _) as [e|] eqn:Hf; [done|].
  apply first_failure_None in Hf. rewrite merge_sort_Permutation in Hf.
  eapply Forall_impl; [exact Hf|]. intros k Hk. by apply index_failure_None.
Qed.

Lemma build_local_timeseries_Ok_table freq h events grid_data df h' :
  h_events h = PyDataFrame events →
  h_grid_data h = PyDataFrame grid_data →
  build_local_timeseries freq h = (Ok df, h') →
  df = local_timeseries (index events) grid_data freq
         (items_of (h_relative_grid_indices h)).
Proof.
  intros He Hg Hrun.
  destruct (build_local_timeseries_Ok_inv freq h df h' Hrun)
    as (ev & gd & He' & Hg' & Hse & Hsg & Hi & Hne & Hall).
  rewrite He in He'. rewrite Hg in Hg'. simplify_eq.
  pose proof (build_local_timeseries_table freq h ev gd) as Ht.
  rewrite Hrun in Ht. simpl in Ht.
  assert (Ok df = Ok (local_timeseries (index ev) gd freq
                        (items_of (h_relative_grid_indices h)))) as Heq.
  { apply Ht; [done..|]. eapply Forall_impl; [exact Hall|].
    intros k Hk. by apply index_failure_None. }
  by injection Heq.
Qed.

(** X1: on valid tables, without an [info] dict, and when every index has a
    shift within the 64-bit range and covers some event, the call returns
    [local_timeseries]: the rows selected at each distinct index, in
    ascending order of the indices, with the columns of [grid_data].
    Afterwards the tables are the same, the indices are sorted, and the log
    has grown by one warning for each index, repeated ones included, that
    covers fewer than 90% of the events. *)
Theorem build_local_timeseries_closed_form freq h events grid_data :
  h_events h = PyDataFrame events →
  h_grid_data h = PyDataFrame grid_data →
  Sorted Z.lt (index events) →
  Sorted Z.lt (index grid_data) →
  h_info h = None →
  items_of (h_relative_grid_indices h) ≠ [] →
  Forall (λ k, shift_in_range grid_data (- k) freq)
         (items_of (h_relative_grid_indices h)) →
  Forall (λ k, hits (index events) grid_data freq k ≠ [])
         (items_of (h_relative_grid_indices h)) →
  build_local_timeseries freq h =
  (Ok (local_timeseries (index events) grid_data freq
         (items_of (h_relative_grid_indices h))),
   mkHeap (h_events h) (h_grid_data h)
     (indices_after_call (h_relative_grid_indices h)) None
     (h_log h ++ warnings (index events) grid_data freq
                   (merge_sort Z.le (items_of (h_relative_grid_indices h))))).
Proof.
  intros He Hg Hse Hsg Hi Hne Hin Hall.
  destruct (build_local_timeseries_returns freq h events grid_data)
    as (df & Hc & ->); [done..|by apply index_failure_None_Forall|].
  rewrite concat_gather in Hc by done. injection Hc as <-.
  rewrite foldl_maybe_warn. simpl. by rewrite Hi.
Qed.

Lemma build_local_timeseries_closed_form_witness :
  let h := call_example (PyList [1; 0; 1]) None in
  build_local_timeseries (Some 1) h =
  (Ok (mkFrame ["response"%string]
         [((0, 2), [2%float]); ((0, 4), [4%float]); ((1, 2), [3%float])]),
   mkHeap (h_events h) (h_grid_data h) (PyList [0; 1; 1]) None
     [Warning (1 # 2) (-1); Warning (1 # 2) (-1)]).
Proof.
  intros h.
  etrans.
  - apply (build_local_timeseries_closed_form
             (Some 1) h events_example grid_example).
    + reflexivity.
    + reflexivity.
    + apply (bool_decide_eq_true_1 _). vm_compute. reflexivity.
    + apply (bool_decide_eq_true_1 _). vm_compute. reflexivity.
    + reflexivity.
    + discriminate.
    + apply (bool_decide_eq_true_1 _). vm_compute. reflexivity.
    + apply (bool_decide_eq_true_1 _). vm_compute. reflexivity.
  - vm_compute. reflexivity.
Defined.

(** X2: the call returns a table exactly on the inputs of [call_returns]:
    tables with strictly increasing indexes, no [info] dict, a non-empty
    collection of indices, for each of which the shift returns (its
    arithmetic does not leave the 64-bit range) and some event is covered.
    On every other input it raises. *)
Theorem build_local_timeseries_returns_iff freq h :
  is_Ok (build_local_timeseries freq h).1 ↔ call_returns freq h.
Proof.
  split.
  - intros [df Hdf].
    destruct (build_local_timeseries freq h) as [r h'] eqn:Hrun.
    simpl in Hdf. subst r. by eapply build_local_timeseries_Ok_inv.
  - intros (ev & gd & He & Hg & Hse & Hsg & Hi & Hne & Hall).
    rewrite (build_local_timeseries_table freq h ev gd); [by eexists|done..|].
    eapply Forall_impl; [exact Hall|].
    intros k Hk. by apply index_failure_None.
Qed.

(** ** Which grid row a result row holds *)

Lemma elem_of_rows_local_timeseries eidx gd freq items k t r :
  ((k, t), r) ∈ rows (local_timeseries eidx gd freq items) ↔
  k ∈ items ∧ t ∈ hits eidx gd freq k
  ∧ row_at (rows (shift gd (- k) freq)) t = Some r.
Proof.
  unfold local_timeseries. cbn [rows]. rewrite list_elem_of_bind. split.
  - intros (k' & Hin & Hk').
    rewrite elem_of_distinct_sorted in Hk'.
    apply list_elem_of_fmap in Hin as ([t' r'] & Heq & Hin).
    unfold data_at, selected in Hin. cbn [rows] in Hin.
    apply list_elem_of_fmap in Hin as (t'' & Heq' & Hin).
    cbn in Heq. simplify_eq.
    do 2 (split; [done|]).
    destruct (row_at_is_Some (rows (shift gd (- k') freq)) t'') as [r Hr].
    { by apply elem_of_intersection in Hin as [_ Hin]. }
    by rewrite Hr.
  - intros (Hk & Ht & Hr). exists k. split.
    + apply list_elem_of_fmap. exists (t, r). split; [done|].
      unfold data_at, selected. cbn [rows]. apply list_elem_of_fmap.
      exists t. by rewrite Hr.
    + by apply elem_of_distinct_sorted.
Qed.

Lemma row_at_shift_freq (gd : DataFrame) p d t :
  row_at (rows (shift gd p (Some d))) t = row_at (rows gd) (t - p * d).
Proof.
  unfold shift. cbn [rows].
  induction (rows gd) as [|[t' r] rs IH]; [done|].
  rewrite fmap_cons. cbn [prod_map row_at fst snd id].
  rewrite IH. destruct (decide (t' + p * d = t)), (decide (t' = t - p * d));
    done || lia.
Qed.

Lemma index_shift_freq (gd : DataFrame) p d :
  index (shift gd p (Some d)) = (λ t, t + p * d) <$> index gd.
Proof.
  unfold index, shift. cbn [rows].
  rewrite <- !list_fmap_compose. by apply list_fmap_ext; intros [].
Qed.

Lemma elem_of_hits_freq eidx (gd : DataFrame) d k t :
  t ∈ hits eidx gd (Some d) k ↔ t ∈ eidx ∧ t + k * d ∈ index gd.
Proof.
  unfold hits. rewrite elem_of_intersection, index_shift_freq.
  rewrite list_elem_of_fmap. split.
  - intros [Ht (t' & -> & Ht')]. split; [done|].
    by replace (t' + - k * d + k * d) with t' by lia.
  - intros [Ht Ht']. split; [done|]. exists (t + k * d). split; [lia|done].
Qed.

(** X3: with a frequency [d], the returned table has a row under the key
    (k, t) exactly for the requested indices [k] and the event timestamps
    [t] for which the grid has a row at timestamp [t + k * d], and it holds
    that row of the grid. *)
Theorem build_local_timeseries_rows_freq d h events grid_data df h' :
  h_events h = PyDataFrame events →
  h_grid_data h = PyDataFrame grid_data →
  build_local_timeseries (Some d) h = (Ok df, h') →
  ∀ k t r,
    ((k, t), r) ∈ rows df ↔
    k ∈ items_of (h_relative_grid_indices h)
    ∧ t ∈ index events
    ∧ row_at (rows grid_data) (t + k * d) = Some r.
Proof.
  intros He Hg Hrun k t r.
  rewrite (build_local_timeseries_Ok_table _ _ _ _ _ _ He Hg Hrun).
  rewrite elem_of_rows_local_timeseries, elem_of_hits_freq, row_at_shift_freq.
  replace (t - - k * d) with (t + k * d) by lia.
  split; [tauto|]. intros (Hk & Ht & Hr).
  split; [done|]. split; [|done]. split; [done|].
  apply row_at_elem_of in Hr. apply list_elem_of_fmap. by exists (t + k * d, r).
Qed.

Lemma build_local_timeseries_rows_freq_witness :
  let h := call_example (PyList [1; 0]) None in
  let df := mkFrame ["response"%string]
              [((0, 2), [2%float]); ((0, 4), [4%float]); ((1, 2), [3%float])] in
  ((1, 2), [3%float]) ∈ rows df ↔
  1 ∈ items_of (h_relative_grid_indices h)
  ∧ 2 ∈ index events_example
  ∧ row_at (rows grid_example) (2 + 1 * 1) = Some [3%float].
Proof.
  intros h df.
  apply (build_local_timeseries_rows_freq 1 h events_example grid_example df
           (add_log (Warning (1 # 2) (-1))
              (set_relative_grid_indices (PyList [0; 1]) h))).
  - reflexivity.
  - reflexivity.
  - vm_compute. reflexivity.
Defined.

Lemma index_shift_none (gd : DataFrame) p : index (shift gd p None) = index gd.
Proof.
  unfold index, shift. cbn [rows]. rewrite fmap_imap.
  rewrite (imap_ext _ (const fst)) by done.
  by rewrite imap_const.
Qed.

Lemma row_at_lookup {K} `{EqDecision K} (rs : list (K * list float)) i t r :
  NoDup rs.*1 → rs !! i = Some (t, r) → row_at rs t = Some r.
Proof.
  induction rs as [|[t' r'] rs IH] in i |- *; [done|].
  rewrite fmap_cons, NoDup_cons. cbn [fst row_at]. intros [Hn Hnd].
  destruct i as [|i]; simpl.
  - intros [= -> ->]. by rewrite decide_True.
  - intros Hi. rewrite decide_False; [by eapply IH|].
    intros ->. apply Hn. apply list_elem_of_fmap. exists (t, r).
    split; [done|]. by eapply list_elem_of_lookup_2.
Qed.

Lemma row_at_shift_none (gd : DataFrame) p i t :
  NoDup (index gd) → index gd !! i = Some t →
  row_at (rows (shift gd p None)) t
  = Some (default (nan_row gd) (lookup_Z (rows gd).*2 (Z.of_nat i - p))).
Proof.
  intros Hn Hi.
  apply (row_at_lookup _ i).
  - fold (index (shift gd p None)). by rewrite index_shift_none.
  - unfold shift. cbn [rows]. rewrite list_lookup_imap.
    unfold index in Hi. rewrite list_lookup_fmap in Hi.
    destruct (rows gd !! i) as [[t' r']|]; [|done].
    by simplify_eq/=.
Qed.

Lemma hits_none eidx (gd : DataFrame) k :
  hits eidx gd None k = intersection eidx (index gd).
Proof. unfold hits. by rewrite index_shift_none. Qed.

(** X4: without a frequency, the returned table has a row under the key (k, t)
    for every requested index [k] and every event timestamp [t] that is a
    grid timestamp; it holds the grid row [k] positions after the row of
    [t], and a row of NaN when that position is outside the grid. *)
Theorem build_local_timeseries_rows_positional h events grid_data df h' :
  h_events h = PyDataFrame events →
  h_grid_data h = PyDataFrame grid_data →
  build_local_timeseries None h = (Ok df, h') →
  ∀ k t r,
    ((k, t), r) ∈ rows df ↔
    k ∈ items_of (h_relative_grid_indices h)
    ∧ t ∈ index events
    ∧ ∃ i : nat,
        index grid_data !! i = Some t
        ∧ r = default (nan_row grid_data)
                (lookup_Z (rows grid_data).*2 (Z.of_nat i + k)).
Proof.
  intros He Hg Hrun k t r.
  destruct (build_local_timeseries_Ok_inv None h df h' Hrun)
    as (ev & gd & He' & Hg' & Hse & Hsg & _).
  rewrite He in He'. rewrite Hg in Hg'. simplify_eq.
  apply Sorted_lt_NoDup in Hsg.
  rewrite (build_local_timeseries_Ok_table _ _ _ _ _ _ He Hg Hrun).
  rewrite elem_of_rows_local_timeseries, hits_none, elem_of_intersection.
  split.
  - intros (Hk & [Ht Htg] & Hr). do 2 (split; [done|]).
    apply list_elem_of_lookup in Htg as [i Hi]. exists i. split; [done|].
    rewrite (row_at_shift_none gd (- k) i t Hsg Hi) in Hr.
    injection Hr as <-. by replace (Z.of_nat i - - k) with (Z.of_nat i + k) by lia.
  - intros (Hk & Ht & i & Hi & ->). split; [done|]. split.
    + split; [done|]. by eapply list_elem_of_lookup_2.
    + rewrite (row_at_shift_none gd (- k) i t Hsg Hi).
      by replace (Z.of_nat i - - k) with (Z.of_nat i + k) by lia.
Qed.

Lemma build_local_timeseries_rows_positional_witness :
  let h := call_example (PyList [1; 0]) None in
  let df := mkFrame ["response"%string]
              [((0, 2), [2%float]); ((0, 4), [4%float]);
               ((1, 2), [3%float]); ((1, 4), [PrimFloat.nan])] in
  ((1, 4), [PrimFloat.nan]) ∈ rows df ↔
  1 ∈ items_of (h_relative_grid_indices h)
  ∧ 4 ∈ index events_example
  ∧ ∃ i : nat,
      index grid_example !! i = Some 4
      ∧ [PrimFloat.nan]
        = default (nan_row grid_example)
            (lookup_Z (rows grid_example).*2 (Z.of_nat i + 1)).
Proof.
  intros h df.
  apply (build_local_timeseries_rows_positional h events_example grid_example
           df (set_relative_grid_indices (PyList [0; 1]) h)).
  - reflexivity.
  - reflexivity.
  - vm_compute. reflexivity.
Defined.

(** X5: without a frequency the shift keeps the index of the grid, so every
    relative index meets the same event timestamps: on valid tables without
    an [info] dict, and for relative indices whose shift is in range (they
    fit a machine integer), the call returns exactly when some event
    timestamp is a grid timestamp. *)
Theorem build_local_timeseries_positional_returns h events grid_data :
  h_events h = PyDataFrame events →
  h_grid_data h = PyDataFrame grid_data →
  Sorted Z.lt (index events) →
  Sorted Z.lt (index grid_data) →
  h_info h = None →
  items_of (h_relative_grid_indices h) ≠ [] →
  Forall (λ k, shift_in_range grid_data (- k) None)
         (items_of (h_relative_grid_indices h)) →
  is_Ok (build_local_timeseries None h).1
  ↔ ∃ t, t ∈ index events ∧ t ∈ index grid_data.
Proof.
  intros He Hg Hse Hsg Hi Hne Hrng. split.
  - intros [df Hdf].
    destruct (build_local_timeseries None h) as [r h'] eqn:Hrun.
    simpl in Hdf. subst r.
    destruct (build_local_timeseries_Ok_inv None h df h' Hrun)
      as (ev & gd & He' & Hg' & _ & _ & _ & _ & Hall).
    rewrite He in He'. rewrite Hg in Hg'. simplify_eq.
    destruct (items_of (h_relative_grid_indices h)) as [|k l]; [done|].
    apply Forall_cons in Hall as [[_ Hk] _]. rewrite hits_none in Hk.
    destruct (intersection (index ev) (index gd)) as [|t ts] eqn:Hint; [done|].
    exists t. apply elem_of_intersection. rewrite Hint. left.
  - intros (t & Ht & Htg).
    rewrite (build_local_timeseries_table None h events grid_data);
      [by eexists|done..|].
    apply index_failure_None_Forall; [done|].
    apply Forall_forall. intros k _. rewrite hits_none. intros Hnil.
    assert (t ∈ intersection (index events) (index grid_data)) as Hin
      by by apply elem_of_intersection.
    rewrite Hnil in Hin. by apply elem_of_nil in Hin.
Qed.

Lemma build_local_timeseries_positional_returns_witness :
  let h := call_example (PyList [100; -100]) None in
  is_Ok (build_local_timeseries None h).1
  ↔ ∃ t, t ∈ index events_example ∧ t ∈ index grid_example.
Proof.
  intros h.
  apply (build_local_timeseries_positional_returns
           h events_example grid_example).
  - reflexivity.
  - reflexivity.
  - apply (bool_decide_eq_true_1 _). vm_compute. reflexivity.
  - apply (bool_decide_eq_true_1 _). vm_compute. reflexivity.
  - reflexivity.
  - discriminate.
  - apply (bool_decide_eq_true_1 _). vm_compute. reflexivity.
Defined.

(** ** Calls with an [info] dict *)

Lemma merge_sort_head_min (l : list Z) k ks :
  merge_sort Z.le l = k :: ks → k ∈ l ∧ ∀ k', k' ∈ l → k ≤ k'.
Proof.
  intros Hs.
  assert (StronglySorted Z.le (k :: ks)) as Hss.
  { rewrite <- Hs. apply StronglySorted_merge_sort; apply _. }
  assert (∀ x, x ∈ k :: ks ↔ x ∈ l) as Hel.
  { intros x. by rewrite <- Hs, merge_sort_Permutation. }
  split; [apply Hel; left|].
  intros k' [->|Hk']%Hel%elem_of_cons; [lia|].
  apply StronglySorted_cons in Hss as [Hall _].
  by eapply Forall_forall in Hall.
Qed.

(** X6: with an [info] dict supplied, a call on valid tables stops at the
    smallest relative index [k].  When the shift of that index is within
    the 64-bit range, it stops with [AssertionError] when the index covers
    no event, and with [NameError] for [mode] otherwise, after the coverage
    warning if one is due.  The caller's dict is not written; the indices
    have been sorted. *)
Theorem build_local_timeseries_info_closed_form
    freq h events grid_data info k ks :
  h_events h = PyDataFrame events →
  h_grid_data h = PyDataFrame grid_data →
  Sorted Z.lt (index events) →
  Sorted Z.lt (index grid_data) →
  h_info h = Some info →
  merge_sort Z.le (items_of (h_relative_grid_indices h)) = k :: ks →
  shift_in_range grid_data (- k) freq →
  build_local_timeseries freq h =
  if decide (hits (index events) grid_data freq k = []) then
    (Raise AssertionError,
     mkHeap (h_events h) (h_grid_data h)
       (indices_after_call (h_relative_grid_indices h)) (Some info) (h_log h))
  else
    (Raise (NameError "mode"),
     mkHeap (h_events h) (h_grid_data h)
       (indices_after_call (h_relative_grid_indices h)) (Some info)
       (h_log h ++ warnings (index events) grid_data freq [k])).
Proof.
  intros He Hg Hse Hsg Hi Hsort Hrng.
  assert (items_of (h_relative_grid_indices h) ≠ []) as Hne.
  { intros Hnil. by rewrite Hnil in Hsort. }
  rewrite (build_local_timeseries_accepts freq h events grid_data) by done.
  rewrite Hsort. cbn [for_idx]. rewrite bind_run. cbn [get_heap].
  cbn [h_info set_relative_grid_indices]. rewrite Hi, bind_run.
  rewrite shift_and_select_with_info, index_failure_in_range by done.
  case_decide as Hk.
  - unfold set_relative_grid_indices. by rewrite Hi.
  - rewrite decide_True by done.
    pose proof (foldl_maybe_warn (index events) grid_data freq [k]) as Hw.
    cbn [foldl] in Hw. rewrite Hw. simpl. by rewrite Hi.
Qed.

Lemma build_local_timeseries_info_closed_form_witness :
  let h := call_example (PyList [1; 0]) (Some ∅) in
  build_local_timeseries (Some 1) h =
  if decide (hits (index events_example) grid_example (Some 1) 0 = []) then
    (Raise AssertionError,
     mkHeap (h_events h) (h_grid_data h)
       (indices_after_call (h_relative_grid_indices h)) (Some ∅) (h_log h))
  else
    (Raise (NameError "mode"),
     mkHeap (h_events h) (h_grid_data h)
       (indices_after_call (h_relative_grid_indices h)) (Some ∅)
       (h_log h ++ warnings (index events_example) grid_example (Some 1) [0])).
Proof.
  intros h.
  apply (build_local_timeseries_info_closed_form
           (Some 1) h events_example grid_example ∅ 0 [1]).
  - reflexivity.
  - reflexivity.
  - apply (bool_decide_eq_true_1 _). vm_compute. reflexivity.
  - apply (bool_decide_eq_true_1 _). vm_compute. reflexivity.
  - reflexivity.
  - vm_compute. reflexivity.
  - apply (bool_decide_eq_true_1 _). vm_compute. reflexivity.
Defined.

(** ** Repeated indices *)

Lemma distinct_sorted_same_set (l1 l2 : list Z) :
  (∀ k, k ∈ l1 ↔ k ∈ l2) → distinct_sorted l1 = distinct_sorted l2.
Proof.
  intros Hel. apply StronglySorted_lt_unique; try apply distinct_sorted_sorted.
  intros k. by rewrite !elem_of_distinct_sorted.
Qed.

Lemma merge_sort_nil_inv (l : list Z) : merge_sort Z.le l = [] → l = [].
Proof.
  intros Hs. apply Permutation_nil. rewrite <- Hs.
  by rewrite merge_sort_Permutation.
Qed.

(** In a sorted list the first failure is the failure of the smallest index
    that has one. *)
Lemma first_failure_Some eidx gd freq l e :
  StronglySorted Z.le l →
  first_failure eidx gd freq l = Some e ↔
  ∃ k, k ∈ l ∧ index_failure eidx gd freq k = Some e
       ∧ ∀ k', k' ∈ l → k' < k → index_failure eidx gd freq k' = None.
Proof.
  unfold first_failure. induction 1 as [|x l Hl IH Hx].
  { split; [done|]. intros (k & Hk & _). by apply elem_of_nil in Hk. }
  cbn [omap list_omap].
  destruct (index_failure eidx gd freq x) as [e'|] eqn:Hfx.
  - cbn [head]. split.
    + intros [= ->]. exists x. split; [left|]. split; [done|].
      intros k' Hk' Hlt. apply elem_of_cons in Hk' as [->|Hk']; [lia|].
      eapply Forall_forall in Hx; [|done]. lia.
    + intros (k & Hk & Hfk & Hmin).
      apply elem_of_cons in Hk as [->|Hk]; [congruence|].
      eapply Forall_forall in Hx; [|exact Hk].
      destruct (decide (x = k)) as [->|Hne]; [congruence|].
      rewrite Hmin in Hfx; [done|left|lia].
  - rewrite IH. split.
    + intros (k & Hk & Hfk & Hmin). exists k. split; [by right|].
      split; [done|].
      intros k' [->|Hk']%elem_of_cons Hlt; [done|by apply Hmin].
    + intros (k & Hk & Hfk & Hmin). exists k.
      apply elem_of_cons in Hk as [->|Hk]; [congruence|].
      split; [done|]. split; [done|].
      intros k' Hk' Hlt. apply Hmin; [by right|done].
Qed.

Lemma first_failure_same_set eidx gd freq (l1 l2 : list Z) :
  (∀ k, k ∈ l1 ↔ k ∈ l2) →
  first_failure eidx gd freq (merge_sort Z.le l1)
  = first_failure eidx gd freq (merge_sort Z.le l2).
Proof.
  assert (∀ (l1 l2 : list Z) e,
    (∀ k, k ∈ l1 ↔ k ∈ l2) →
    first_failure eidx gd freq (merge_sort Z.le l1) = Some e →
    first_failure eidx gd freq (merge_sort Z.le l2) = Some e) as Hone.
  { clear l1 l2. intros l1 l2 e Hel.
    rewrite !first_failure_Some by (apply StronglySorted_merge_sort; apply _).
    intros (k & Hk & Hfk & Hmin). exists k.
    rewrite merge_sort_Permutation in Hk. rewrite merge_sort_Permutation.
    split; [by apply Hel|]. split; [done|].
    intros k' Hk'. apply Hmin. rewrite merge_sort_Permutation in Hk'.
    rewrite merge_sort_Permutation. by apply Hel. }
  intros Hel.
  destruct (first_failure eidx gd freq (merge_sort Z.le l1)) as [e|] eqn:H1.
  - symmetry. by eapply Hone.
  - destruct (first_failure eidx gd freq (merge_sort Z.le l2)) as [e|] eqn:H2;
      [|done].
    eapply (Hone l2 l1) in H2; [congruence|].
    intros k. symmetry. apply Hel.
Qed.

Lemma for_idx_result_same_set eidx gd freq (l1 l2 : list Z) h :
  (∀ k, k ∈ l1 ↔ k ∈ l2) →
  (for_idx eidx gd freq (merge_sort Z.le l1) [] h).1
  = (for_idx eidx gd freq (merge_sort Z.le l2) [] h).1.
Proof.
  intros Hel.
  destruct (h_info h) as [i|] eqn:Hi.
  - destruct (merge_sort Z.le l1) as [|k1 ks1] eqn:H1;
      destruct (merge_sort Z.le l2) as [|k2 ks2] eqn:H2.
    + done.
    + apply merge_sort_head_min in H2 as [Hk _].
      apply Hel in Hk. apply merge_sort_nil_inv in H1.
      subst l1. by apply elem_of_nil in Hk.
    + apply merge_sort_head_min in H1 as [Hk _].
      apply Hel in Hk. apply merge_sort_nil_inv in H2.
      subst l2. by apply elem_of_nil in Hk.
    + apply merge_sort_head_min in H1 as [Hk1 Hmin1].
      apply merge_sort_head_min in H2 as [Hk2 Hmin2].
      assert (k1 = k2) as ->.
      { apply Z.le_antisymm; [apply Hmin1, Hel, Hk2 | apply Hmin2, Hel, Hk1]. }
      cbn [for_idx]. rewrite !bind_run. cbn [get_heap]. rewrite Hi, !bind_run.
      rewrite shift_and_select_with_info.
      by destruct (index_failure eidx gd freq k2).
  - rewrite !for_idx_no_info_result by done.
    rewrite (first_failure_same_set eidx gd freq l1 l2 Hel).
    destruct (first_failure eidx gd freq (merge_sort Z.le l2)); [done|].
    f_equal.
    by rewrite !gather_distinct_sorted, (distinct_sorted_same_set l1 l2).
Qed.

(** X7: two collections with the same set of relative indices give the same
    result, table or exception: the order of the indices and their
    repetitions do not matter. *)
Theorem build_local_timeseries_same_indices freq h indices1 indices2 :
  (∀ k, k ∈ items_of indices1 ↔ k ∈ items_of indices2) →
  (build_local_timeseries freq (set_relative_grid_indices indices1 h)).1
  = (build_local_timeseries freq (set_relative_grid_indices indices2 h)).1.
Proof.
  intros Hel.
  destruct (tables_valid h) eqn:Hv.
  2:{ by rewrite !build_local_timeseries_rejects by by left. }
  destruct (decide (items_of indices1 = [])) as [Hl|Hl].
  { assert (items_of indices2 = []) as Hl2.
    { destruct (items_of indices2) as [|k l]; [done|].
      assert (k ∈ items_of indices1) as Hk by (apply Hel; left).
      rewrite Hl in Hk. by apply elem_of_nil in Hk. }
    by rewrite !build_local_timeseries_rejects by by right. }
  assert (items_of indices2 ≠ []) as Hl2.
  { intros Hnil. destruct (items_of indices1) as [|k l]; [done|].
    assert (k ∈ items_of indices2) as Hk by (apply Hel; left).
    rewrite Hnil in Hk. by apply elem_of_nil in Hk. }
  apply tables_valid_true in Hv as (ev & gd & He & Hg & Hse & Hsg).
  rewrite !(build_local_timeseries_result freq _ ev gd) by done.
  cbn [h_relative_grid_indices set_relative_grid_indices].
  rewrite !for_idx_set_indices.
  pose proof (for_idx_result_same_set (index ev) gd freq
                (items_of indices1) (items_of indices2) h Hel) as Hsame.
  destruct (for_idx _ _ _ (merge_sort Z.le (items_of indices1)) _ h)
    as [r1 h1].
  destruct (for_idx _ _ _ (merge_sort Z.le (items_of indices2)) _ h)
    as [r2 h2].
  simpl in *. by subst r2.
Qed.

Lemma build_local_timeseries_same_indices_witness :
  let h := call_example (PyTuple []) None in
  (∀ k, k ∈ items_of (PyList [1; 0; 1; 1]) ↔ k ∈ items_of (PyTuple [0; 1]))
  ∧ (build_local_timeseries (Some 1)
       (set_relative_grid_indices (PyList [1; 0; 1; 1]) h)).1
    = (build_local_timeseries (Some 1)
         (set_relative_grid_indices (PyTuple [0; 1]) h)).1.
Proof.
  intros h.
  assert (∀ k, k ∈ items_of (PyList [1; 0; 1; 1])
               ↔ k ∈ items_of (PyTuple [0; 1])) as Hel.
  { intros k. simpl. rewrite !elem_of_cons, !elem_of_nil. tauto. }
  split; [exact Hel|].
  exact (build_local_timeseries_same_indices (Some 1) h _ _ Hel).
Defined.

(** ** Keys and size of the result *)

Lemma StronglySorted_key_lt_NoDup (l : list (Z * Z)) :
  StronglySorted key_lt l → NoDup l.
Proof.
  induction 1 as [|x l _ IH Hx]; constructor; [|done].
  intros Hin. eapply Forall_forall in Hx; [|done].
  unfold key_lt in Hx. lia.
Qed.

Lemma index_local_timeseries eidx gd freq items :
  index (local_timeseries eidx gd freq items)
  = distinct_sorted items ≫= λ k, pair k <$> hits eidx gd freq k.
Proof.
  unfold index, local_timeseries. cbn [rows].
  induction (distinct_sorted items) as [|k ks IH]; [done|].
  rewrite !bind_cons, fmap_app, IH. f_equal.
  rewrite <- list_fmap_compose, <- index_data_at. unfold index.
  rewrite <- list_fmap_compose. by apply list_fmap_ext; intros [].
Qed.

Lemma index_local_timeseries_sorted eidx gd freq items :
  Sorted Z.lt eidx →
  StronglySorted key_lt (index (local_timeseries eidx gd freq items)).
Proof.
  intros Hs. rewrite index_local_timeseries.
  pose proof (distinct_sorted_sorted items) as Hd.
  induction Hd as [|k ks _ IH Hk]; [constructor|].
  rewrite bind_cons. apply StronglySorted_app_2; [| |done].
  - intros [k1 t1] [k2 t2] (t & [= -> ->] & _)%list_elem_of_fmap.
    intros (k' & (t' & [= -> ->] & _)%list_elem_of_fmap & Hk')%list_elem_of_bind.
    left. simpl. by eapply Forall_forall in Hk.
  - apply (StronglySorted_fmap _ Z.lt).
    + intros t1 t2 ?. by right.
    + apply Sorted_StronglySorted; [apply _|]. by apply Sorted_lt_filter.
Qed.

(** X8: the composite keys of a returned table are strictly increasing, hence
    pairwise distinct; the outer key of each is one of the requested
    indices and the inner key is an event timestamp. *)
Theorem build_local_timeseries_keys freq h events grid_data df h' :
  h_events h = PyDataFrame events →
  h_grid_data h = PyDataFrame grid_data →
  build_local_timeseries freq h = (Ok df, h') →
  StronglySorted key_lt (index df)
  ∧ NoDup (index df)
  ∧ ∀ k t, (k, t) ∈ index df →
           k ∈ items_of (h_relative_grid_indices h) ∧ t ∈ index events.
Proof.
  intros He Hg Hrun.
  destruct (build_local_timeseries_Ok_inv freq h df h' Hrun)
    as (ev & gd & He' & Hg' & Hse & _).
  rewrite He in He'. simplify_eq.
  rewrite (build_local_timeseries_Ok_table _ _ _ _ _ _ He Hg Hrun).
  pose proof (index_local_timeseries_sorted (index ev) grid_data freq
                (items_of (h_relative_grid_indices h)) Hse) as Hs.
  split; [done|]. split; [by apply StronglySorted_key_lt_NoDup|].
  intros k t ([kt r] & Hkt & Hin)%list_elem_of_fmap. simpl in Hkt. subst kt.
  apply elem_of_rows_local_timeseries in Hin as (Hk & Ht & _).
  split; [done|]. by apply elem_of_intersection in Ht as [Ht _].
Qed.

Lemma build_local_timeseries_keys_witness :
  let h := call_example (PyList [1; 0]) None in
  let df := mkFrame ["response"%string]
              [((0, 2), [2%float]); ((0, 4), [4%float]); ((1, 2), [3%float])] in
  StronglySorted key_lt (index df)
  ∧ NoDup (index df)
  ∧ ∀ k t, (k, t) ∈ index df →
           k ∈ items_of (h_relative_grid_indices h) ∧ t ∈ index events_example.
Proof.
  intros h df.
  apply (build_local_timeseries_keys (Some 1) h events_example grid_example df
           (add_log (Warning (1 # 2) (-1))
              (set_relative_grid_indices (PyList [0; 1]) h))).
  - reflexivity.
  - reflexivity.
  - vm_compute. reflexivity.
Defined.

(** X9: a returned table has, for each distinct requested index, one row per
    event timestamp that the index covers: at most one row per distinct
    index and event. *)
Theorem build_local_timeseries_row_count freq h events grid_data df h' :
  h_events h = PyDataFrame events →
  h_grid_data h = PyDataFrame grid_data →
  build_local_timeseries freq h = (Ok df, h') →
  let distinct := distinct_sorted (items_of (h_relative_grid_indices h)) in
  length (rows df)
  = sum_list ((λ k, length (hits (index events) grid_data freq k)) <$> distinct)
  ∧ (length (rows df) ≤ length distinct * length (index events))%nat.
Proof.
  intros He Hg Hrun distinct.
  rewrite (build_local_timeseries_Ok_table _ _ _ _ _ _ He Hg Hrun).
  rewrite <- (length_fmap fst (rows _)).
  fold (index (local_timeseries (index events) grid_data freq
                 (items_of (h_relative_grid_indices h)))).
  rewrite index_local_timeseries. fold distinct.
  induction distinct as [|k ks [IH1 IH2]]; [done|].
  rewrite bind_cons, length_app, length_fmap, fmap_cons. cbn [sum_list length].
  split; [by rewrite IH1|].
  pose proof (length_filter (.∈ index (shift grid_data (- k) freq))
                (index events)) as Hk.
  unfold hits, intersection in *. lia.
Qed.

Lemma build_local_timeseries_row_count_witness :
  let h := call_example (PyList [1; 0]) None in
  let df := mkFrame ["response"%string]
              [((0, 2), [2%float]); ((0, 4), [4%float]); ((1, 2), [3%float])] in
  let distinct := distinct_sorted (items_of (h_relative_grid_indices h)) in
  length (rows df)
  = sum_list ((λ k, length (hits (index events_example) grid_example
                              (Some 1) k)) <$> distinct)
  ∧ (length (rows df) ≤ length distinct * length (index events_example))%nat.
Proof.
  intros h df.
  apply (build_local_timeseries_row_count (Some 1) h events_example
           grid_example df
           (add_log (Warning (1 # 2) (-1))
              (set_relative_grid_indices (PyList [0; 1]) h))).
  - reflexivity.
  - reflexivity.
  - vm_compute. reflexivity.
Defined.

(** ** [_shift_and_select] on its own *)

(** The test [pct_found < 0.9] in integers. *)
Lemma Qltb_pct_found (found total : nat) :
  total ≠ 0%nat →
  Qltb (Z.of_nat found # Pos.of_nat total) (9 # 10) = true
  ↔ 10 * Z.of_nat found < 9 * Z.of_nat total.
Proof.
  intros Hne. rewrite Qltb_lt. unfold Qlt. cbn [Qnum Qden].
  replace (Z.pos (Pos.of_nat total)) with (Z.of_nat total).
  - lia.
  - destruct total as [|n]; [done|].
    by rewrite <- Pos.of_nat_succ, Zpos_P_of_succ_nat, Nat2Z.inj_succ.
Qed.

Lemma NoDup_index_shift (gd : DataFrame) p freq :
  NoDup (index gd) → NoDup (index (shift gd p freq)).
Proof.
  intros Hn. destruct freq as [d|].
  - rewrite index_shift_freq.
    assert (Inj (=) (=) (λ t : Z, t + p * d)) by (intros t1 t2 ?; lia).
    by apply (NoDup_fmap_2 _).
  - by rewrite index_shift_none.
Qed.

Lemma row_at_unique {K} `{EqDecision K} (rs : list (K * list float)) t r :
  NoDup rs.*1 → (t, r) ∈ rs → row_at rs t = Some r.
Proof.
  intros Hn (i & Hi)%list_elem_of_lookup_1. by eapply row_at_lookup.
Qed.

(** X10: [_shift_and_select] as [build_local_timeseries] calls it, on a
    strictly increasing [idx] and a table with a strictly increasing index,
    without an [info] dict and with a shift within the 64-bit range.  It
    raises [AssertionError], changing nothing, when no label of [idx] is a
    label of the shifted table.  Otherwise it returns a table with the
    columns of [grid_data] whose index is strictly increasing and made of
    the labels of [idx] found in the shifted table, and whose rows are
    exactly the rows of the shifted table at these labels; the only effect
    is one warning in the log, written exactly when fewer than 90% of the
    labels of [idx] were found. *)
Theorem shift_and_select_outcome idx grid_data periods freq h :
  Sorted Z.lt idx →
  Sorted Z.lt (index grid_data) →
  shift_in_range grid_data periods freq →
  let shifted := shift grid_data periods freq in
  let found := intersection idx (index shifted) in
  (found = [] →
   _shift_and_select idx grid_data periods freq None h
   = (Raise AssertionError, h))
  ∧ (found ≠ [] →
     ∃ selected,
       _shift_and_select idx grid_data periods freq None h
       = (Ok (selected, None),
          if decide (10 * Z.of_nat (length found) < 9 * Z.of_nat (length idx))
          then add_log (Warning (Z.of_nat (length found)
                                 # Pos.of_nat (length idx)) periods) h
          else h)
       ∧ columns selected = columns grid_data
       ∧ index selected = found
       ∧ Sorted Z.lt (index selected)
       ∧ ∀ t r, (t, r) ∈ rows selected ↔ t ∈ idx ∧ (t, r) ∈ rows shifted).
Proof.
  intros Hsi Hsg Hrng shifted found.
  pose proof (shift_and_select_no_info idx grid_data (- periods) freq h) as Hrun.
  rewrite index_failure_in_range in Hrun by by rewrite Z.opp_involutive.
  unfold hits in Hrun.
  rewrite !Z.opp_involutive in Hrun. fold shifted found in Hrun.
  assert (NoDup (index shifted)) as Hnd.
  { by apply NoDup_index_shift, Sorted_lt_NoDup. }
  split; intros Hf.
  - by rewrite Hrun, decide_True.
  - rewrite Hrun, decide_False by done.
    exists (data_at idx grid_data freq (- periods)).
    split; [|split; [|split; [|split]]].
    + f_equal. unfold maybe_warn, coverage, hits.
      rewrite Z.opp_involutive. fold shifted found.
      assert (length idx ≠ 0%nat) as Hlen.
      { intros Hl. apply Hf. unfold found. by destruct idx. }
      pose proof (Qltb_pct_found (length found) (length idx) Hlen) as Hq.
      destruct (Qltb _ _).
      * rewrite decide_True; [done|]. by apply Hq.
      * rewrite decide_False; [done|]. intros Hlt. apply Hq in Hlt. done.
    + apply columns_data_at.
    + rewrite index_data_at. unfold hits. by rewrite Z.opp_involutive.
    + rewrite index_data_at. unfold hits, intersection.
      by apply Sorted_lt_filter.
    + intros t r. unfold data_at, hits. rewrite Z.opp_involutive.
      fold shifted found. unfold selected. cbn [rows].
      rewrite list_elem_of_fmap. split.
      * intros (t' & [= -> ->] & Ht).
        apply elem_of_intersection in Ht as [Ht Hts]. split; [done|].
        destruct (row_at_is_Some (rows shifted) t' Hts) as [r Hr].
        rewrite Hr. by apply row_at_elem_of.
      * intros [Ht Hr]. exists t. split.
        -- by rewrite (row_at_unique (rows shifted) t r Hnd Hr).
        -- apply elem_of_intersection. split; [done|].
           apply list_elem_of_fmap. by exists (t, r).
Qed.

Lemma shift_and_select_outcome_witness :
  let h := call_example (PyTuple [1]) None in
  let idx := index events_example in
  let shifted := shift grid_example (-1) (Some 1) in
  let found := intersection idx (index shifted) in
  (found = [] →
   _shift_and_select idx grid_example (-1) (Some 1) None h
   = (Raise AssertionError, h))
  ∧ (found ≠ [] →
     ∃ selected,
       _shift_and_select idx grid_example (-1) (Some 1) None h
       = (Ok (selected, None),
          if decide (10 * Z.of_nat (length found) < 9 * Z.of_nat (length idx))
          then add_log (Warning (Z.of_nat (length found)
                                 # Pos.of_nat (length idx)) (-1)) h
          else h)
       ∧ columns selected = columns grid_example
       ∧ index selected = found
       ∧ Sorted Z.lt (index selected)
       ∧ ∀ t r, (t, r) ∈ rows selected ↔ t ∈ idx ∧ (t, r) ∈ rows shifted).
Proof.
  intros h idx.
  apply (shift_and_select_outcome idx grid_example (-1) (Some 1) h).
  - apply (bool_decide_eq_true_1 _). vm_compute. reflexivity.
  - apply (bool_decide_eq_true_1 _). vm_compute. reflexivity.
  - apply (bool_decide_eq_true_1 _). vm_compute. reflexivity.
Defined.

(** X11: with an [info] dict and a shift within the 64-bit range,
    [_shift_and_select] never returns: it raises [AssertionError] when no
    label of [idx] is found or when the dict is not empty, and [NameError]
    for the name [mode] in every other case. *)
Theorem shift_and_select_info_raises idx grid_data periods freq info h :
  shift_in_range grid_data periods freq →
  (_shift_and_select idx grid_data periods freq (Some info) h).1
  = Raise (if decide (intersection idx (index (shift grid_data periods freq))
                      ≠ [] ∧ info = ∅)
           then NameError "mode" else AssertionError).
Proof.
  intros Hrng.
  pose proof (shift_and_select_with_info idx grid_data (- periods) freq info h)
    as Hrun.
  rewrite index_failure_in_range in Hrun by by rewrite Z.opp_involutive.
  unfold hits in Hrun. rewrite !Z.opp_involutive in Hrun.
  rewrite Hrun.
  destruct (decide (intersection idx (index (shift grid_data periods freq))
                    = [])) as [Hnil|Hne]; cbn [fst].
  - rewrite decide_False; [done|]. by intros [? _].
  - destruct (decide (info = ∅)) as [->|Hi].
    + by rewrite decide_True.
    + rewrite decide_False; [done|]. by intros [_ ?].
Qed.

Lemma shift_and_select_info_raises_witness :
  (_shift_and_select (index events_example) grid_example (-1) (Some 1)
     (Some ∅) (call_example (PyTuple [1]) (Some ∅))).1
  = Raise (if decide (intersection (index events_example)
                        (index (shift grid_example (-1) (Some 1))) ≠ []
                      ∧ (∅ : gmap string info_value) = ∅)
           then NameError "mode" else AssertionError).
Proof.
  apply (shift_and_select_info_raises (index events_example) grid_example
           (-1) (Some 1) ∅ (call_example (PyTuple [1]) (Some ∅))).
  apply (bool_decide_eq_true_1 _). vm_compute. reflexivity.
Defined.

(** ** [regression] and its [info] dict *)

Lemma nobs_of_filter (y : Series) :
  length (filter (λ p : Z * bool, p.2 = true)
            (prod_map id (λ v, negb (PrimFloat.is_nan v)) <$> y))
  = nobs_of y.
Proof.
  unfold nobs_of. induction y as [|[t v] y IH]; [done|].
  rewrite fmap_cons, !filter_cons. cbn [prod_map fst snd id].
  destruct (PrimFloat.is_nan v) eqn:Hv; cbn [negb].
  - rewrite decide_False by done. rewrite decide_False by done. exact IH.
  - rewrite decide_True by done. rewrite decide_True by done.
    cbn [length]. by rewrite IH.
Qed.

(** X12: [regression] never returns.  When it raises, the caller's [info] dict
    is either as it was, or it was empty and now holds the nine
    diagnostics, the number of observations being the number of non-NaN
    responses; in that case the exception is the [AttributeError] of the
    last statement. *)
Theorem regression_outcome `{Numpy} x y info :
  ∃ e info',
    regression x y info = (Raise e, info')
    ∧ (info' = info
       ∨ (info = Some ∅
          ∧ e = AttributeError "numpy" "mat_mul"
          ∧ ∃ d, info' = Some d
                 ∧ d !! "nobs (resp)=%d"%string = Some (RegInt (nobs_of y))
                 ∧ ∀ key, is_Some (d !! key) ↔ key ∈ regression_info_keys)).
Proof.
  destruct (regression x y info) as [r info'] eqn:Hrun.
  unfold regression in Hrun.
  repeat (rewrite bind_lift in Hrun;
          match type of Hrun with
          | context [match ?r with Ok _ => _ | Raise _ => _ end] =>
              destruct r; [|simplify_eq; eauto]
          end).
  rewrite bind_run in Hrun. unfold get_heap at 1 in Hrun.
  destruct info as [d|]; rewrite bind_run in Hrun.
  - rewrite bind_lift in Hrun.
    destruct (decide (d = ∅)) as [->|Hd].
    + rewrite bool_decide_true in Hrun by done. cbn [dassert] in Hrun.
      unfold modify at 1 in Hrun.
      rewrite bind_lift, np_getattr_mat_mul in Hrun. simplify_eq.
      do 2 eexists. split; [done|]. right. do 2 (split; [done|]).
      eexists. split; [done|]. split.
      * rewrite nobs_of_filter. by simplify_map_eq.
      * intros key. unfold regression_info_keys.
        rewrite !lookup_insert, lookup_empty, !elem_of_cons, elem_of_nil.
        repeat case_decide; subst; (split; [intros His|intros Hor]);
          try (by eauto 12); try (by eexists);
          try (by destruct His as [? [=]]).
        repeat (destruct Hor as [Hor|Hor]; [congruence|]). done.
    + rewrite bool_decide_false in Hrun by done.
      cbn [dassert] in Hrun. cbv beta iota in Hrun. simplify_eq. eauto.
  - unfold mret at 1, ST_ret at 1 in Hrun.
    rewrite bind_lift, np_getattr_mat_mul in Hrun. simplify_eq. eauto.
Qed.

(** The second case occurs: on the example with an empty dict the
    diagnostics are written before the call raises. *)
Lemma regression_outcome_example :
  ∃ d, @regression Numpy_single x_example y_example (Some ∅)
       = (Raise (AttributeError "numpy" "mat_mul"), Some d)
       ∧ d !! "nobs (resp)=%d"%string = Some (RegInt 3)
       ∧ d !! "beta=%s"%string = Some (RegArray [2%float])
       ∧ d !! "rss=%f"%string = Some (RegArray [0%float]).
Proof. eexists. split; [vm_compute; reflexivity|]. by vm_compute. Qed.

(** ** [reindex_event_features] whenever it returns *)

Lemma fill_source_elem_of m inc (src : list (Z * list float)) t s r :
  fill_source m inc src t = Some (s, r) → (s, r) ∈ src.
Proof.
  unfold fill_source. destruct m; intros Hf.
  - apply last_Some_elem_of in Hf. by apply list_elem_of_filter in Hf as [_ ?].
  - apply head_Some_elem_of in Hf. by apply list_elem_of_filter in Hf as [_ ?].
Qed.

Lemma reindex_row_source df kwargs inc limit target j t :
  reindex_row df kwargs inc limit target j t ∈ (rows df).*2
  ∨ reindex_row df kwargs inc limit target j t = fill_row df kwargs.
Proof.
  unfold reindex_row.
  destruct (row_at (rows df) t) as [r|] eqn:Hr.
  { left. apply row_at_elem_of in Hr. apply list_elem_of_fmap. by exists (t, r). }
  destruct (kw_method kwargs) as [m|]; [|by right].
  destruct (fill_source m inc (rows df) t) as [[s r]|] eqn:Hf; [|by right].
  destruct (within_limit m limit target j s); [|by right].
  left. apply fill_source_elem_of in Hf. apply list_elem_of_fmap. by exists (s, r).
Qed.

Lemma reindexed_rows_source df kwargs inc limit target t row :
  (t, row) ∈ rows (reindexed df kwargs inc limit target) →
  row ∈ (rows df).*2 ∨ row = fill_row df kwargs.
Proof.
  unfold reindexed. cbn [rows].
  intros (j & Hj)%list_elem_of_lookup_1.
  rewrite list_lookup_imap in Hj.
  destruct (target !! j) as [t'|]; [|done].
  simpl in Hj. injection Hj as <- <-. apply reindex_row_source.
Qed.

(** X13: whatever the tables and the options, when [reindex_event_features]
    returns, the result has the index of the grid and the columns of the
    event table, each of its rows is a row of the event table or the fill
    row, and no object was modified: the function adds no data of its
    own. *)
Theorem reindex_event_features_returns events grid_data kwargs h r h' :
  reindex_event_features events grid_data kwargs h = (Ok r, h') →
  h' = h
  ∧ index r = index grid_data
  ∧ columns r = columns events
  ∧ ∀ t row, (t, row) ∈ rows r →
      row ∈ (rows events).*2
      ∨ row = replicate (length (columns events))
                (default PrimFloat.nan (kw_fill_value kwargs)).
Proof.
  unfold reindex_event_features. rewrite bind_lift.
  destruct (reindex events (index grid_data) kwargs) as [r'|e] eqn:Hre;
    [|done].
  intros [= <- <-]. split; [done|].
  unfold reindex in Hre. case_decide as Heq.
  { injection Hre as <-. do 2 (split; [done|]). intros t row Hin. left.
    apply list_elem_of_fmap. by exists (t, row). }
  assert (∀ inc limit,
    index (reindexed events kwargs inc limit (index grid_data))
    = index grid_data
    ∧ columns (reindexed events kwargs inc limit (index grid_data))
      = columns events
    ∧ ∀ t row,
        (t, row) ∈ rows (reindexed events kwargs inc limit (index grid_data)) →
        row ∈ (rows events).*2 ∨ row = fill_row events kwargs) as Hgood.
  { intros inc limit. split; [apply index_reindexed|]. split; [done|].
    intros t row. apply reindexed_rows_source. }
  destruct (negb (bool_decide (NoDup (index events)))); [done|].
  destruct (kw_method kwargs) as [m|] eqn:Hm.
  - case_decide as Hnil.
    { injection Hre as <-. rewrite Hnil. do 2 (split; [done|]).
      by intros t row ?%elem_of_nil. }
    destruct (bool_decide (Sorted Z.lt (index events))
              && bool_decide (Sorted Z.le (index grid_data))).
    { destruct (kw_limit kwargs) as [[|lim]|]; [done| |];
        injection Hre as <-; apply Hgood. }
    destruct (kw_limit kwargs); [done|].
    destruct (bool_decide (Sorted Z.lt (index events))
              || bool_decide (Sorted (flip Z.lt) (index events))); [|done].
    injection Hre as <-. apply Hgood.
  - destruct (kw_limit kwargs); [done|].
    injection Hre as <-. apply Hgood.
Qed.

Lemma reindex_event_features_returns_witness :
  let h := call_example (PyTuple [0]) None in
  let kwargs := mk_kwargs (Some pad) (Some 0%float) (Some 1%nat) in
  let r := mkFrame ["indicator"%string]
             [(1, [0%float]); (2, [1%float]); (3, [1%float]); (4, [1%float])] in
  h = h
  ∧ index r = index grid_example
  ∧ columns r = columns events_example
  ∧ ∀ t row, (t, row) ∈ rows r →
      row ∈ (rows events_example).*2
      ∨ row = replicate (length (columns events_example))
                (default PrimFloat.nan (kw_fill_value kwargs)).
Proof.
  intros h kwargs r.
  apply (reindex_event_features_returns events_example grid_example kwargs h r h).
  vm_compute. reflexivity.
Defined.

Lemma last_filter_le_exact (rs : list (Z * list float)) t row :
  Sorted Z.lt rs.*1 → row_at rs t = Some row →
  last (filter (λ p, p.1 ≤ t) rs) = Some (t, row).
Proof.
  intros Hs. apply Sorted_StronglySorted in Hs; [|apply _].
  induction rs as [|[t' r'] rs IH]; [done|].
  rewrite fmap_cons in Hs. apply StronglySorted_cons in Hs as [Hall Hs].
  cbn [row_at fst]. case_decide as Ht.
  - intros [= ->]. subst t'. rewrite filter_cons_True by (simpl; lia).
    rewrite filter_none; [done|].
    apply Forall_forall. intros [s r] Hin. simpl.
    eapply Forall_forall in Hall; [|apply list_elem_of_fmap; by exists (s, r)].
    simpl in Hall. lia.
  - intros Hr. specialize (IH Hs Hr).
    assert (t' < t) as Hlt.
    { eapply Forall_forall in Hall; [done|].
      apply row_at_elem_of in Hr. apply list_elem_of_fmap. by exists (t, row). }
    rewrite filter_cons_True by (simpl; lia).
    rewrite last_cons. by rewrite IH.
Qed.

(** X14: with [method="pad"] (forward fill) and no limit, on tables with
    strictly increasing indexes, the row at a grid timestamp [t] is the row
    of the latest event at or before [t], and the fill row when there is no
    such event: no row takes its values from a later event. *)
Theorem reindex_event_features_pad events grid_data kwargs h :
  Sorted Z.lt (index events) →
  Sorted Z.lt (index grid_data) →
  kw_method kwargs = Some pad →
  kw_limit kwargs = None →
  ∃ r,
    reindex_event_features events grid_data kwargs h = (Ok r, h)
    ∧ ∀ t, t ∈ index grid_data →
        row_at (rows r) t
        = Some (match last (filter (λ p, p.1 ≤ t) (rows events)) with
                | Some (_, row) => row
                | None => replicate (length (columns events))
                            (default PrimFloat.nan (kw_fill_value kwargs))
                end).
Proof.
  intros Hse Hsg Hm Hl. eexists. split.
  { unfold reindex_event_features. rewrite bind_lift, reindex_returns; [done..|].
    unfold kwargs_accepted. by rewrite Hl. }
  intros t Ht. case_decide as Heq.
  - rewrite <- Heq in Ht.
    destruct (row_at_is_Some (rows events) t Ht) as [row Hrow].
    by rewrite Hrow, (last_filter_le_exact _ _ _ Hse Hrow).
  - unfold reindexed. cbn [rows].
    destruct (row_at_imap
                (reindex_row events kwargs true (kw_limit kwargs)
                   (index grid_data)) (index grid_data) t Ht)
      as (j & _ & ->).
    f_equal. unfold reindex_row.
    destruct (row_at (rows events) t) as [row|] eqn:Hrow.
    { by rewrite (last_filter_le_exact _ _ _ Hse Hrow). }
    rewrite Hm, Hl. unfold fill_source.
    rewrite (list_filter_iff (λ p, before true p.1 t) (λ p, p.1 ≤ t)) by done.
    by destruct (last _) as [[s row]|].
Qed.

Lemma reindex_event_features_pad_witness :
  let h := call_example (PyTuple [0]) None in
  let kwargs := mk_kwargs (Some pad) None None in
  ∃ r,
    reindex_event_features events_example grid_example kwargs h = (Ok r, h)
    ∧ ∀ t, t ∈ index grid_example →
        row_at (rows r) t
        = Some (match last (filter (λ p, p.1 ≤ t) (rows events_example)) with
                | Some (_, row) => row
                | None => replicate (length (columns events_example))
                            (default PrimFloat.nan (kw_fill_value kwargs))
                end).
Proof.
  intros h kwargs.
  apply (reindex_event_features_pad events_example grid_example kwargs h).
  - apply (bool_decide_eq_true_1 _). vm_compute. reflexivity.
  - apply (bool_decide_eq_true_1 _). vm_compute. reflexivity.
  - reflexivity.
  - reflexivity.
Defined.
